(** * NeuralLitho: model-based optimisation of an imaging lens

    A shallow embedding of [trainer/mbo_lens.py]: the camera pipeline
    ([CameraPipeline.get_psf], [CameraPipeline.forward]), the objective
    evaluator ([MBOLens.calculate_loss]) and the optimisation driver
    ([MBOLens.optim] with [visualize] and [save_optimized_psf_mask]).

    Python floats are IEEE binary64 values ([PrimFloat.float]); a real tensor
    is the list of its elements, a complex tensor the list of its (re, im)
    pairs.  The raw metrics of the evaluator are 0-dim tensors on which the
    program itself does arithmetic: they carry their dtype ([ScalarTensor])
    and that arithmetic is the one of the dtype.  Everything imported from
    other modules of the repository or from torch / kornia / cv2 is a field
    of the class [Collaborators].  Python exceptions are values of [exn];
    calls whose only effect is on the outside (printing, plotting, writing
    files) and the calls the properties count are recorded as [event]s.

    What is assumed of the collaborators, whose code is in other modules: the
    lens model, the forward pass of the lithography model, the deconvolution,
    the losses and the metrics are functions of their arguments; every
    parameter of the lithography model takes part in its forward pass;
    drawing a DOE sample and drawing sensor noise advance torch's random
    generator; [show], [plot_loss] and [print] produce output only and leave
    their arguments as they are; [cv2.imwrite] writes the file or returns
    [False], and leaves its arguments as they are; [model_selector] and the
    constructors of the DOE, of the lens model, of the losses and of the
    scheduler return; tensor shapes fit. *)

From Stdlib Require Import PrimFloat ZArith List Lia.
From Stdlib Require FloatOps FloatAxioms SpecFloat.
From stdpp Require Import gmap strings list.
Import ListNotations.

(* Decimal literals denote the nearest binary64 value, as in Python. *)
Set Warnings "-inexact-float".

Local Open Scope Z_scope.
Local Open Scope string_scope.
Local Open Scope list_scope.

(** ** Values *)

Abbreviation Tensor := (list float).
Abbreviation CTensor := (list (float * float)).

(** A parameter of the lithography model: a tensor object.  [requires_grad]
    is the attribute autograd reads and [p_grad] is [.grad], the attribute it
    writes; any other attribute name assigned on the object lands in its
    instance dictionary [p_dict]. *)
Record Param : Type := mkParam {
  p_data : Tensor;
  requires_grad : bool;
  p_grad : option Tensor;
  p_dict : gmap string bool
}.

(** [obj.name = v] on a tensor, for a Boolean [v]. *)
Definition setattr (p : Param) (name : string) (v : bool) : Param :=
  if decide (name = "requires_grad")
  then mkParam (p_data p) v (p_grad p) (p_dict p)
  else mkParam (p_data p) (requires_grad p) (p_grad p) (<[name := v]> (p_dict p)).

(** [param.copy_(d)]: the value changes, the attributes stay. *)
Definition with_data (d : Tensor) (p : Param) : Param :=
  mkParam d (requires_grad p) (p_grad p) (p_dict p).

(** [param.grad = g]. *)
Definition with_p_grad (g : option Tensor) (p : Param) : Param :=
  mkParam (p_data p) (requires_grad p) g (p_dict p).

(** [getattr(obj, name)], [None] when the attribute does not exist. *)
Definition getattr (p : Param) (name : string) : option bool :=
  if decide (name = "requires_grad")
  then Some (requires_grad p)
  else p_dict p !! name.

(** The object returned by [model_selector(model_choice)]. *)
Record LithoModel : Type := mkLitho {
  lm_choice : string;
  parameters : list Param
}.

(** ** Exceptions and events *)

Inductive exn : Type :=
| RuntimeError_reraise          (* bare [raise] with no active exception, l.59 *)
| Exception_                    (* [raise Exception], l.164 *)
| ZeroDivisionError             (* [(i + 1) % 0], l.127 *)
| AttributeError (name : string)     (* [None.numpy()], l.172; a missing attribute *)
| UnboundLocalError (var : string)   (* l.197, l.198 *)
| FileNotFoundError (path : string)  (* [torch.load], l.101 *)
| RuntimeError_state_dict       (* [load_state_dict] on a mismatching checkpoint, l.103 *)
| ValueError_lr (lr : float).   (* 'Invalid learning rate: {lr}' of [AdamW], l.111 *)

Inductive show_title : Type :=
| TitleMask (i : Z)                    (* 'doe mask at itr {}' *)
| TitlePsf (i : Z) (psf_sum : float)   (* 'psf at itr {} is {}' *)
| TitleSensor (i : Z)                  (* 'sensor_img at itr {}' *)
| TitleDeconv (i : Z).                 (* 'deconv_img at itr {}' *)

Inductive event : Type :=
| EvPrintLoad (flag : bool)                          (* l.97 *)
| EvLithoModel (mask : Tensor)                       (* l.51 *)
| EvDeconv (cam_img psf : Tensor)                    (* l.156 *)
| EvPrintWrongType (loss_type : option string)       (* l.163 *)
| EvZeroGrad                                         (* l.182 *)
| EvBackward                                         (* l.186 *)
| EvOptimizerStep                                    (* l.187 *)
| EvSchedulerStep                                    (* l.189 *)
| EvShow (img : Tensor) (title : show_title) (cmap : string)   (* l.128-137 *)
| EvPlotLoss (itr_list : list Z) (loss_list : list float)      (* l.138 *)
| EvPrintLoss (loss : float) (i : Z)                           (* l.139 *)
| EvPrintMetrics (mssim mpsnr : list float) (i : Z)            (* l.140 *)
| EvImwrite (path : string) (img : list Z).   (* a call of [cv2.imwrite], l.173-175 *)

Definition is_optimizer_step (e : event) : bool :=
  match e with EvOptimizerStep => true | _ => false end.

Definition is_litho_call (e : event) : bool :=
  match e with EvLithoModel _ => true | _ => false end.

Definition is_deconv_call (e : event) : bool :=
  match e with EvDeconv _ _ => true | _ => false end.

Definition is_imwrite (e : event) : bool :=
  match e with EvImwrite _ _ => true | _ => false end.

(** Events emitted by [visualize]. *)
Definition is_render (e : event) : bool :=
  match e with
  | EvShow _ _ _ | EvPlotLoss _ _ | EvPrintLoss _ _ | EvPrintMetrics _ _ _ => true
  | _ => false
  end.

(** The iteration a rendering belongs to: each rendering prints the loss
    exactly once, together with its iteration index (l.139). *)
Definition rendered_at (e : event) : option Z :=
  match e with
  | EvPrintLoss _ i => Some i
  | _ => None
  end.

Definition count (p : event -> bool) (evs : list event) : nat :=
  length (List.filter p evs).

(** ** 0-dim tensors and the arithmetic of their dtype *)

(** The floating-point dtypes of torch: [float32] is its default, [float64]
    is the format of Python floats. *)
Inductive dtype : Type :=
| float16
| bfloat16
| float32
| float64.

(** The precision and the exponent bound of the binary format of a dtype. *)
Definition dtype_prec (dt : dtype) : Z :=
  match dt with float16 => 11 | bfloat16 => 8 | float32 => 24 | float64 => 53 end.

Definition dtype_emax (dt : dtype) : Z :=
  match dt with float16 => 16 | bfloat16 => 128 | float32 => 128 | float64 => 1024 end.

(** Multiplication and subtraction in a dtype: the exact result rounded to
    the nearest value of the format, ties to even.  The operands and the
    result are values of the dtype, held as the binary64 values equal to
    them. *)
Definition dtype_mul (dt : dtype) (x y : float) : float :=
  FloatOps.SF2Prim
    (SpecFloat.SFmul (dtype_prec dt) (dtype_emax dt) (FloatOps.Prim2SF x) (FloatOps.Prim2SF y)).

Definition dtype_sub (dt : dtype) (x y : float) : float :=
  FloatOps.SF2Prim
    (SpecFloat.SFsub (dtype_prec dt) (dtype_emax dt) (FloatOps.Prim2SF x) (FloatOps.Prim2SF y)).

(** A 0-dim tensor: its dtype and its element. *)
Record ScalarTensor : Type := mkScalar {
  st_dtype : dtype;
  st_value : float
}.

(** [t * c], [c - t] and [-t] for a Python number [c]: the result has the
    dtype of [t], and [c] is taken into that dtype. *)
Definition scalar_mul (t : ScalarTensor) (c : float) : ScalarTensor :=
  mkScalar (st_dtype t) (dtype_mul (st_dtype t) (st_value t) c).

Definition scalar_rsub (c : float) (t : ScalarTensor) : ScalarTensor :=
  mkScalar (st_dtype t) (dtype_sub (st_dtype t) c (st_value t)).

Definition scalar_neg (t : ScalarTensor) : ScalarTensor :=
  mkScalar (st_dtype t) (- st_value t)%float.

(** [t.item()]: the element as a Python float, which holds every value of
    every dtype exactly. *)
Definition scalar_item (t : ScalarTensor) : float := st_value t.

(** ** External collaborators *)

Class Collaborators : Type := {
  (* torch: random generator, optimiser and scheduler states *)
  Rng : Type;
  OptState : Type;
  SchedState : Type;
  (* task.doe.DOE *)
  DOE_init : Rng -> Tensor * Rng;
  get_doe_sample : Tensor -> Rng -> Tensor * Rng;
  (* the rendered profile: a non-empty sequence, its first entry and the rest *)
  logits_to_doe_profile : Tensor -> Tensor * list Tensor;
  (* task.free_space_fwd.FreeSpaceFwd, built from metalens_optics_param *)
  lens_model : Tensor -> CTensor;
  (* litho.learned_litho.model_selector and the forward of the model *)
  model_selector : string -> LithoModel;
  litho_forward : string -> list Tensor -> Tensor -> Tensor;
  (* torch.load: the checkpoint stored at a path, if any *)
  torch_load : string -> option (list Tensor);
  (* Module.load_state_dict: whether torch accepts the checkpoint for the
     module, that is, its keys are those of the module and every tensor has
     the shape of its parameter *)
  state_dict_fits : LithoModel -> list Tensor -> bool;
  (* torch primitives on tensors *)
  complex_abs : float * float -> float;
  torch_sum : Tensor -> float;
  torch_log : float -> float;
  index00 : Tensor -> Tensor;
  (* autograd: gradient of a scalar function of a tensor at a point, and the
     sum [grad + g] that accumulation leaves in [.grad] *)
  autograd : (Tensor -> float) -> Tensor -> Tensor;
  grad_add : Tensor -> Tensor -> Tensor;
  (* torch.optim.AdamW and lr_scheduler.StepLR *)
  AdamW : float -> OptState;
  AdamW_step : OptState -> Tensor -> option Tensor -> OptState * Tensor;
  StepLR : OptState -> Z -> float -> SchedState;
  StepLR_step : SchedState -> OptState -> SchedState * OptState;
  (* utils.general_utils *)
  normalize : Tensor -> Tensor;
  center_to_background_ratio : Tensor -> Z -> float;
  central_crop : Tensor -> Z -> Tensor;
  sensor_noise : Tensor -> float -> float -> Rng -> Tensor * Rng;
  conv2d : Tensor -> Tensor -> bool -> Tensor;
  (* task.reconstruction *)
  torch_richardson_lucy_fft : Tensor -> Tensor -> Tensor;
  (* torch.nn.SmoothL1Loss(beta), kornia SSIMLoss(window_size), PSNRLoss(max_val) *)
  SmoothL1Loss : float -> Tensor -> Tensor -> float;
  SSIMLoss : Z -> Tensor -> Tensor -> ScalarTensor;
  PSNRLoss : float -> Tensor -> Tensor -> ScalarTensor;
  (* numpy: astype(np.uint8) *)
  astype_uint8 : Tensor -> list Z;
  (* cv2.imwrite(path, img): True when the file was written, False when it
     was not (a missing directory, no encoder for the extension) *)
  cv2_imwrite : string -> list Z -> bool
}.

(** ** The objects of the program *)

(** [CameraPipeline]: the DOE logits live in the store ([World]); the lens
    model is built from fixed parameters and is the collaborator [lens_model]. *)
Record CameraPipeline : Type := mkCamera {
  use_litho_model_flag : bool
}.

(** The immutable attributes of an [MBOLens] object. *)
Record MBOLens : Type := mkMBOLens {
  model_choice : string;
  cam_a_poisson : float;
  cam_b_sqrt : float;
  camera : CameraPipeline;
  loss_type : option string;
  num_iters : Z;
  lr : float;
  image_visualize_interval : Z;
  save_dir : string;
  use_scheduler : bool
}.

Inductive result (A : Type) : Type :=
| Ok (a : A)
| Raise (e : exn).
Arguments Ok {A} a.
Arguments Raise {A} e.

(** Elementwise torch / numpy arithmetic. *)
Definition torch_abs `{Collaborators} (field : CTensor) : Tensor :=
  map complex_abs field.

Definition torch_pow2 (t : Tensor) : Tensor :=
  map (fun x => (x * x)%float) t.

Definition torch_isnan_any (t : Tensor) : bool :=
  existsb PrimFloat.is_nan t.

Definition tensor_add (a b : Tensor) : Tensor :=
  zip_with PrimFloat.add a b.

Definition add_scalar (t : Tensor) (c : float) : Tensor :=
  map (fun x => (x + c)%float) t.

Definition mul_scalar (t : Tensor) (c : float) : Tensor :=
  map (fun x => (x * c)%float) t.

(** [loss.item()].  The loss is a 0-dim tensor that the program only negates
    and reads, both exact in every dtype: it is represented by its element. *)
Definition item (x : float) : float := x.

(** [range(n)]. *)
Definition range (n : Z) : list Z :=
  map Z.of_nat (seq 0 (Z.to_nat n)).

(** ** The store and the monad of the program *)

Section Program.
Context `{Collaborators}.

(** The mutable objects reachable from an [MBOLens] instance, and torch's
    global random generator. *)
Record World : Type := mkWorld {
  logits : Tensor;                  (* self.camera.doe.logits *)
  logits_grad : option Tensor;      (* self.camera.doe.logits.grad *)
  litho_model : LithoModel;         (* self.litho_model *)
  mask_optimizer : OptState;        (* self.mask_optimizer *)
  scheduler : option SchedState;    (* self.scheduler, set when use_scheduler *)
  rng : Rng
}.

Definition with_logits (lg : Tensor) (w : World) : World :=
  mkWorld lg (logits_grad w) (litho_model w) (mask_optimizer w) (scheduler w) (rng w).

Definition with_grad (g : option Tensor) (w : World) : World :=
  mkWorld (logits w) g (litho_model w) (mask_optimizer w) (scheduler w) (rng w).

Definition with_litho_model (lm : LithoModel) (w : World) : World :=
  mkWorld (logits w) (logits_grad w) lm (mask_optimizer w) (scheduler w) (rng w).

Definition with_optimizer (o : OptState) (w : World) : World :=
  mkWorld (logits w) (logits_grad w) (litho_model w) o (scheduler w) (rng w).

Definition with_scheduler (s : option SchedState) (w : World) : World :=
  mkWorld (logits w) (logits_grad w) (litho_model w) (mask_optimizer w) s (rng w).

Definition with_rng (r : Rng) (w : World) : World :=
  mkWorld (logits w) (logits_grad w) (litho_model w) (mask_optimizer w) (scheduler w) r.

(** A computation reads and updates the store, returns or raises, and emits
    events.  After a [Raise] the store is the one reached when it was raised. *)
Definition M (A : Type) : Type := World -> result A * World * list event.

Definition ret {A} (a : A) : M A := fun w => (Ok a, w, []).

Definition raise {A} (e : exn) : M A := fun w => (Raise e, w, []).

Definition bind {A B} (m : M A) (k : A -> M B) : M B := fun w =>
  match m w with
  | (Ok a, w1, ev1) =>
      match k a w1 with
      | (r, w2, ev2) => (r, w2, ev1 ++ ev2)
      end
  | (Raise e, w1, ev1) => (Raise e, w1, ev1)
  end.

Definition emit (e : event) : M unit := fun w => (Ok tt, w, [e]).

Definition gets {A} (f : World -> A) : M A := fun w => (Ok (f w), w, []).

Definition modify (f : World -> World) : M unit := fun w => (Ok tt, f w, []).

Notation "'let*' x ':=' m 'in' k" := (bind m (fun x => k))
  (at level 10, x pattern, m at level 200, k at level 200).

(** [for i in its: l = body i l], threading the locals [l] the body rebinds. *)
Fixpoint for_each {L} (body : Z -> L -> M L) (its : list Z) (l : L) : M L :=
  match its with
  | [] => ret l
  | i :: its' => let* l' := body i l in for_each body its' l'
  end.

(** ** CameraPipeline *)

(** [self.doe.get_doe_sample()]: a sample drawn from the current logits. *)
Definition doe_get_doe_sample : M Tensor := fun w =>
  let '(mask, r) := get_doe_sample (logits w) (rng w) in
  (Ok mask, with_rng r w, []).

(** [litho_model(mask)]. *)
Definition litho_model_call (lm : LithoModel) (mask : Tensor) : M Tensor :=
  let* _ := emit (EvLithoModel mask) in
  ret (litho_forward (lm_choice lm) (map p_data (parameters lm)) mask).

(** [sensor_noise(img, a, b)], which draws from the random generator. *)
Definition sensor_noise_call (img : Tensor) (a b : float) : M Tensor := fun w =>
  let '(noise, r) := sensor_noise img a b (rng w) in
  (Ok noise, with_rng r w, []).

Definition get_psf (self : CameraPipeline) (litho_model : LithoModel)
  : M (Tensor * float * Tensor * Tensor) :=
  let* mask := doe_get_doe_sample in
  let* print_pred := (if use_litho_model_flag self
                    then litho_model_call litho_model mask
                    else ret mask) in
  let psf := torch_pow2 (torch_abs (lens_model print_pred)) in
  let psf_sum := torch_sum psf in
  let* _ := (if torch_isnan_any psf then raise RuntimeError_reraise else ret tt) in
  ret (psf, psf_sum, print_pred, mask).

Definition forward (self : CameraPipeline) (batch_target : Tensor) (litho_model : LithoModel)
  : M (Tensor * Tensor * float * Tensor * Tensor) :=
  let* (psf, psf_sum, print_pred, mask) := get_psf self litho_model in
  let sensor_img := conv2d batch_target psf true in
  let* noise := sensor_noise_call sensor_img 0.004%float 0.02%float in
  let sensor_img := tensor_add sensor_img noise in
  ret (sensor_img, psf, psf_sum, print_pred, mask).

(** ** MBOLens: construction *)

Definition checkpoint_path (model_choice : string) : string :=
  "model/ckpt/" +:+ "learned_litho_model_" +:+ model_choice +:+ ".pt".

(** Every parameter takes its stored tensor, by [param.copy_]. *)
Fixpoint copy_values (ps : list Param) (values : list Tensor) : list Param :=
  match ps, values with
  | p :: ps', d :: values' => with_data d p :: copy_values ps' values'
  | _, _ => ps
  end.

(** [module.load_state_dict(checkpoint)]: a checkpoint that torch does not
    accept for the module is refused; otherwise the parameters take the
    stored tensors and keep their attributes. *)
Definition load_state_dict (lm : LithoModel) (checkpoint : list Tensor) : result LithoModel :=
  if state_dict_fits lm checkpoint
  then Ok (mkLitho (lm_choice lm) (copy_values (parameters lm) checkpoint))
  else Raise RuntimeError_state_dict.

(** l.96-105.  The loop assigns the attribute spelled [requries_grad]. *)
Definition load_pretrained_litho_model (model_choice : string) (lm : LithoModel)
    (use_litho_model_flag : bool) : result LithoModel * list event :=
  let evs := [EvPrintLoad use_litho_model_flag] in
  if use_litho_model_flag then
    match torch_load (checkpoint_path model_choice) with
    | None => (Raise (FileNotFoundError (checkpoint_path model_choice)), evs)
    | Some checkpoint =>
        match load_state_dict lm checkpoint with
        | Raise e => (Raise e, evs)
        | Ok lm' =>
            (Ok (mkLitho (lm_choice lm')
                   (map (fun param => setattr param "requries_grad" false) (parameters lm'))),
             evs)
        end
    end
  else (Ok lm, evs).

(** The attributes [initialize_optimization] derives (l.114-118). *)
Definition loss_fn : Tensor -> Tensor -> float := SmoothL1Loss 0.1%float.
Definition metric_ssim : Tensor -> Tensor -> ScalarTensor := SSIMLoss 1.
Definition metric_psnr : Tensor -> Tensor -> ScalarTensor := PSNRLoss 1%float.

(** l.107-123: the optimiser is built over [[self.camera.doe.logits]] alone,
    so its step ([optimizer_step] below) updates the logits and nothing else.
    [torch.optim.AdamW] refuses a learning rate for which [0.0 <= lr] does
    not hold: a negative one, or NaN. *)
Definition initialize_optimization (lr : float) (use_scheduler : bool)
  : result (OptState * option SchedState) :=
  if PrimFloat.leb 0%float lr then
    let mask_optimizer := AdamW lr in
    Ok (mask_optimizer,
        if use_scheduler then Some (StepLR mask_optimizer 25 0.5%float) else None)
  else Raise (ValueError_lr lr).

(** [MBOLens.__init__] (l.78-94), from the state of the random generator. *)
Definition MBOLens_init (model_choice : string) (use_litho_model_flag : bool)
    (num_iters : Z) (lr : float) (use_scheduler : bool) (image_visualize_interval : Z)
    (cam_a_poisson cam_b_sqrt : float) (save_dir : string) (loss_type : option string)
    (r : Rng) : result (MBOLens * World) * list event :=
  let lm := model_selector model_choice in
  match load_pretrained_litho_model model_choice lm use_litho_model_flag with
  | (Raise e, evs) => (Raise e, evs)
  | (Ok lm', evs) =>
      let '(lg, r') := DOE_init r in
      match initialize_optimization lr use_scheduler with
      | Raise e => (Raise e, evs)
      | Ok (opt, sch) =>
          (Ok (mkMBOLens model_choice cam_a_poisson cam_b_sqrt (mkCamera use_litho_model_flag)
                 loss_type num_iters lr image_visualize_interval save_dir use_scheduler,
               mkWorld lg None lm' opt sch r'),
           evs)
      end
  end.

(** ** MBOLens: the objective evaluator *)

(** [torch_richardson_lucy_fft(cam_img, psf)]. *)
Definition deconv_call (cam_img psf : Tensor) : M Tensor :=
  let* _ := emit (EvDeconv cam_img psf) in
  ret (torch_richardson_lucy_fft cam_img psf).

Definition calculate_loss (self : MBOLens) (cam_img target psf : Tensor)
  : M (float * option Tensor * list float * list float) :=
  let deconv_result : option Tensor := None in
  let metric_ssim1 := scalar_rsub 1%float (scalar_mul (metric_ssim cam_img target) 2%float) in
  let metric_psnr1 := scalar_neg (metric_psnr cam_img target) in
  let metric_ssim_l := [scalar_item metric_ssim1] in
  let metric_psnr_l := [scalar_item metric_psnr1] in
  if decide (loss_type self = Some "cbr") then
    let loss := (- torch_log (center_to_background_ratio psf 10))%float in
    ret (loss, deconv_result, metric_ssim_l, metric_psnr_l)
  else if decide (loss_type self = Some "deconv_loss") then
    let* deconv_result := deconv_call cam_img psf in
    let loss := loss_fn deconv_result target in
    let metric_ssim2 := scalar_rsub 1%float (scalar_mul (metric_ssim deconv_result target) 2%float) in
    let metric_psnr2 := scalar_neg (metric_psnr deconv_result target) in
    let metric_ssim_l := metric_ssim_l ++ [scalar_item metric_ssim2] in
    let metric_psnr_l := metric_psnr_l ++ [scalar_item metric_psnr2] in
    ret (loss, Some deconv_result, metric_ssim_l, metric_psnr_l)
  else
    let* _ := emit (EvPrintWrongType (loss_type self)) in
    raise Exception_.

(** ** MBOLens: diagnostics and export *)

Definition visualize (self : MBOLens) (i : Z) (mask sensor_img psf : Tensor)
    (deconv_img : option Tensor) (itr_list : list Z) (loss_list mssim mpsnr : list float)
    (psf_sum loss : float) : M (option Tensor) :=
  let psf_save : option Tensor := None in
  if decide (image_visualize_interval self = 0) then raise ZeroDivisionError
  else if decide ((i + 1) mod image_visualize_interval self = 0) then
    let* _ := emit (EvShow (index00 mask) (TitleMask i) "jet") in
    let psf_save := central_crop (index00 (normalize psf)) 128 in
    let* _ := emit (EvShow psf_save (TitlePsf i psf_sum) "gray") in
    let* _ := emit (EvShow (index00 sensor_img) (TitleSensor i) "gray") in
    let* _ := match deconv_img with
              | Some d => emit (EvShow (index00 d) (TitleDeconv i) "gray")
              | None => ret tt
              end in
    let* _ := emit (EvPlotLoss itr_list loss_list) in
    let* _ := emit (EvPrintLoss loss i) in
    let* _ := emit (EvPrintMetrics mssim mpsnr i) in
    ret (Some psf_save)
  else ret psf_save.

(** [cv2.imwrite(path, img)]: the call, and what it returns. *)
Definition imwrite (path : string) (img : list Z) : M bool :=
  let* _ := emit (EvImwrite path img) in
  ret (cv2_imwrite path img).

(** [psf_save] is the Python value passed in: [None] or a tensor.  What the
    two calls of [cv2.imwrite] return is dropped. *)
Definition save_optimized_psf_mask (self : MBOLens) (psf_save : option Tensor) : M Tensor :=
  let* lg := gets logits in
  let mask_logits := fst (logits_to_doe_profile lg) in
  let mask_to_save := astype_uint8 (add_scalar mask_logits 10%float) in
  let* psf_to_save := match psf_save with
                      | Some t => ret t
                      | None => raise (AttributeError "numpy")
                      end in
  let* _ := imwrite (save_dir self +:+ "/mask" +:+ ".bmp") mask_to_save in
  let* _ := imwrite (save_dir self +:+ "/psf" +:+ ".bmp")
              (astype_uint8 (mul_scalar psf_to_save 255%float)) in
  ret mask_logits.

(** ** MBOLens: the optimisation loop *)

(** The local variables of [optim] that outlive an iteration.  [psf_save]
    and [print_pred] are unbound ([None]) until the first iteration binds
    them; the value bound to [psf_save] is itself [None] or a tensor. *)
Record Locals : Type := mkLocals {
  loss_list : list float;
  itr_list : list Z;
  psf_save : option (option Tensor);
  print_pred : option Tensor
}.

Definition read_local {A} (name : string) (v : option A) : M A :=
  match v with
  | Some a => ret a
  | None => raise (UnboundLocalError name)
  end.

(** [self.mask_optimizer.zero_grad()]: the optimiser clears the gradient of
    the tensors it holds, the logits. *)
Definition zero_grad : M unit :=
  let* _ := modify (with_grad None) in
  emit EvZeroGrad.

(** The forward computation of one iteration (l.183-184). *)
Definition forward_and_loss (self : MBOLens) (batch_target : Tensor) :=
  let* lm := gets litho_model in
  let* (sensor_img, psf, psf_sum, print_pred, mask) := forward (camera self) batch_target lm in
  let* (loss, deconv_img, metric_ssim, metric_psnr) := calculate_loss self sensor_img batch_target psf in
  ret (sensor_img, psf, psf_sum, print_pred, mask, loss, deconv_img, metric_ssim, metric_psnr).

(** The graph autograd records while l.183-184 run from the store [w0]: the
    loss as a function of the value of the logits, with the same draws of the
    random generator. *)
Definition loss_graph (self : MBOLens) (batch_target : Tensor) (w0 : World) (lg : Tensor) : float :=
  match forward_and_loss self batch_target (with_logits lg w0) with
  | (Ok (_, _, _, _, _, loss, _, _, _), _, _) => loss
  | (Raise _, _, _) => nan
  end.

(** The lithography model with another value of its [j]-th parameter. *)
Definition with_param_data (j : nat) (d : Tensor) (lm : LithoModel) : LithoModel :=
  mkLitho (lm_choice lm) (alter (with_data d) j (parameters lm)).

(** The same graph, as a function of the value of the [j]-th parameter of
    the lithography model. *)
Definition litho_graph (self : MBOLens) (batch_target : Tensor) (w0 : World) (j : nat)
    (d : Tensor) : float :=
  match forward_and_loss self batch_target
          (with_litho_model (with_param_data j d (litho_model w0)) w0) with
  | (Ok (_, _, _, _, _, loss, _, _, _), _, _) => loss
  | (Raise _, _, _) => nan
  end.

(** What [backward()] leaves in [t.grad]: the gradient, added to the one
    already there. *)
Definition accumulate (g0 : option Tensor) (g : Tensor) : option Tensor :=
  Some (match g0 with
        | None => g
        | Some g0 => grad_add g0 g
        end).

(** [backward()] on the parameters of the lithography model: those with
    [requires_grad] accumulate their gradient. *)
Definition litho_backward (graph : nat -> Tensor -> float) (lm : LithoModel) : LithoModel :=
  mkLitho (lm_choice lm)
    (imap (fun j p => if requires_grad p
                      then with_p_grad (accumulate (p_grad p) (autograd (graph j) (p_data p))) p
                      else p)
          (parameters lm)).

(** [loss.backward()] on the graph recorded from the store [w0]: the gradient
    is accumulated into [.grad] of the leaves of the graph, which are the
    logits and, when the lithography model took part in the forward pass
    (l.50-51), its parameters. *)
Definition accumulate_grad (self : MBOLens) (batch_target : Tensor) (w0 w : World) : World :=
  let g := autograd (loss_graph self batch_target w0) (logits w) in
  let w := with_grad (accumulate (logits_grad w) g) w in
  if use_litho_model_flag (camera self)
  then with_litho_model (litho_backward (litho_graph self batch_target w0) (litho_model w)) w
  else w.

Definition backward (self : MBOLens) (batch_target : Tensor) (w0 : World) : M unit :=
  let* _ := modify (accumulate_grad self batch_target w0) in
  emit EvBackward.

(** [self.mask_optimizer.step()]: the optimiser holds the logits only. *)
Definition adamw_update (w : World) : World :=
  let '(o, lg) := AdamW_step (mask_optimizer w) (logits w) (logits_grad w) in
  with_optimizer o (with_logits lg w).

Definition optimizer_step : M unit :=
  let* _ := modify adamw_update in
  emit EvOptimizerStep.

(** [self.scheduler.step()]: the scheduler rewrites the learning rate kept
    in the optimiser. *)
Definition steplr_update (s : SchedState) (w : World) : World :=
  let '(s', o) := StepLR_step s (mask_optimizer w) in
  with_scheduler (Some s') (with_optimizer o w).

Definition scheduler_step : M unit :=
  let* sch := gets scheduler in
  match sch with
  | None => raise (AttributeError "scheduler")
  | Some s =>
      let* _ := modify (steplr_update s) in
      emit EvSchedulerStep
  end.

(** The body of the loop of [optim] (l.182-195). *)
Definition optim_body (self : MBOLens) (batch_target : Tensor) (i : Z) (l : Locals) : M Locals :=
  let* _ := zero_grad in
  let* w0 := gets id in
  let* (sensor_img, psf, psf_sum, print_pred, mask, loss, deconv_img, metric_ssim, metric_psnr) :=
    forward_and_loss self batch_target in
  let* _ := backward self batch_target w0 in
  let* _ := optimizer_step in
  let* _ := (if use_scheduler self then scheduler_step else ret tt) in
  let loss_list := loss_list l ++ [item loss] in
  let itr_list := itr_list l ++ [i] in
  let* psf_save := visualize self i mask sensor_img psf deconv_img itr_list loss_list
                     metric_ssim metric_psnr psf_sum loss in
  ret (mkLocals loss_list itr_list (Some psf_save) (Some print_pred)).

Definition optim_loop (self : MBOLens) (batch_target : Tensor) : M Locals :=
  for_each (optim_body self batch_target) (range (num_iters self))
    (mkLocals [] [] None None).

Definition optim (self : MBOLens) (batch_target : Tensor) : M (Tensor * Tensor) :=
  let* l := optim_loop self batch_target in
  let* psf_save := read_local "psf_save" (psf_save l) in
  let* mask_logits := save_optimized_psf_mask self psf_save in
  let* print_pred := read_local "print_pred" (print_pred l) in
  ret (mask_logits, print_pred).

End Program.

(** ** A deterministic stand-in for the collaborators

    Used to run the program on concrete inputs: the DOE sample is the logits
    themselves, the lens model turns a profile into a real-valued field (so
    the modulus of an element is the absolute value of its real part), the
    lithography model doubles its input, the optimiser is plain gradient
    descent with a constant unit gradient, noise is zero, the raw metrics are
    float32 tensors (0.1 as float32, and 3), and only the directory
    [missing_dir] cannot be written to. *)

Definition mock_sum (t : Tensor) : float :=
  fold_right PrimFloat.add 0%float t.

Definition mock_descent (lr : float) (p : Tensor) (g : option Tensor) : float * Tensor :=
  (lr, match g with
       | Some g => zip_with (fun x d => (x - lr * d)%float) p g
       | None => p
       end).

Definition mock_load (path : string) : option (list Tensor) :=
  if decide (path = "model/ckpt/learned_litho_model_pbl3d.pt")
  then Some [[2%float]]
  else None.

(** A checkpoint fits when it has one tensor per parameter, each of the size
    of its parameter. *)
Definition mock_fits (lm : LithoModel) (checkpoint : list Tensor) : bool :=
  bool_decide (map length checkpoint = map (fun p => length (p_data p)) (parameters lm)).

(** Only an existing directory can be written to. *)
Definition mock_imwrite (path : string) (img : list Z) : bool :=
  negb (String.prefix "missing_dir/" path).

Definition mock : Collaborators := {|
  Rng := nat;
  OptState := float;
  SchedState := nat;
  DOE_init := fun r => ([0.5%float; 0.25%float], r);
  get_doe_sample := fun lg r => (lg, S r);
  logits_to_doe_profile := fun lg => (lg, []);
  lens_model := fun t => map (fun x => (x, 0%float)) t;
  model_selector := fun name => mkLitho name [mkParam [1%float] true None ∅];
  litho_forward := fun _ _ mask => mul_scalar mask 2%float;
  torch_load := mock_load;
  state_dict_fits := mock_fits;
  complex_abs := fun c => PrimFloat.abs (fst c);
  torch_sum := mock_sum;
  torch_log := fun x => x;
  index00 := fun t => t;
  autograd := fun _ x => map (fun _ => 1%float) x;
  grad_add := tensor_add;
  AdamW := fun lr => lr;
  AdamW_step := mock_descent;
  StepLR := fun _ _ _ => 0%nat;
  StepLR_step := fun s o => (S s, o);
  normalize := fun t => t;
  center_to_background_ratio := fun psf _ => mock_sum psf;
  central_crop := fun t _ => t;
  sensor_noise := fun img _ _ r => (map (fun _ => 0%float) img, S r);
  conv2d := fun target psf _ => map (fun x => (x * mock_sum psf)%float) target;
  torch_richardson_lucy_fft := fun cam _ => cam;
  SmoothL1Loss := fun _ a b => mock_sum (zip_with PrimFloat.sub a b);
  SSIMLoss := fun _ _ _ => mkScalar float32 0.10000000149011612%float;
  PSNRLoss := fun _ _ _ => mkScalar float32 3%float;
  astype_uint8 := fun t => map (fun _ => 0) t;
  cv2_imwrite := mock_imwrite
|}.

(** A store with finite logits whose squared field amplitude overflows. *)
Definition overflow_world : @World mock :=
  @mkWorld mock [1e200%float] None (@model_selector mock "pbl3d") 0.5%float None 0%nat.

(** A store whose logits hold a NaN. *)
Definition nan_world : @World mock :=
  @mkWorld mock [nan] None (@model_selector mock "pbl3d") 0.5%float None 0%nat.

(** The store a run of two-element logits starts from. *)
Definition mock_world : @World mock :=
  @mkWorld mock [0.5%float; 0.25%float] None (@model_selector mock "pbl3d") 0.5%float None 0%nat.

Definition mock_self (flag : bool) (loss_type : option string) (n k : Z) : MBOLens :=
  mkMBOLens "pbl3d" 0.004%float 0.02%float (mkCamera flag) loss_type n 0.5%float k "out" false.

(** The object and the store [MBOLens.__init__] builds with a scheduler. *)
Definition scheduled_self : MBOLens :=
  mkMBOLens "pbl3d" 0.004%float 0.02%float (mkCamera false) (Some "cbr") 3 0.5%float 2
    "out" true.

Definition scheduled_world : @World mock :=
  @mkWorld mock [0.5%float; 0.25%float] None (@model_selector mock "pbl3d") 0.5%float
    (Some 0%nat) 0%nat.

(** * Vocabulary of the properties *)

Section Vocabulary.
Context `{Collaborators}.

(** The print prediction [get_psf] computes in the store [w]. *)
Definition print_pred_of (self : CameraPipeline) (lm : LithoModel) (w : World) : Tensor :=
  let mask := fst (get_doe_sample (logits w) (rng w)) in
  if use_litho_model_flag self
  then litho_forward (lm_choice lm) (map p_data (parameters lm)) mask
  else mask.

(** The PSF [get_psf] computes in the store [w]. *)
Definition psf_of (self : CameraPipeline) (lm : LithoModel) (w : World) : Tensor :=
  torch_pow2 (torch_abs (lens_model (print_pred_of self lm w))).

(** The events of [get_psf]: the call of the lithography model, if any. *)
Definition litho_events (self : CameraPipeline) (w : World) : list event :=
  if use_litho_model_flag self
  then [EvLithoModel (fst (get_doe_sample (logits w) (rng w)))]
  else [].

(** Two stores that differ in the state of the random generator only. *)
Definition same_but_rng (w w1 : World) : Prop :=
  w1 = with_rng (rng w1) w.

(** The events of the forward computation: calls of the lithography model
    and of the deconvolution, and the report of a wrong loss type. *)
Definition is_forward_event (e : event) : bool :=
  match e with
  | EvLithoModel _ | EvDeconv _ _ | EvPrintWrongType _ => true
  | _ => false
  end.

(** What one iteration hands on to [visualize]. *)
Definition Forwarded : Type :=
  (Tensor * Tensor * float * Tensor * Tensor * float * option Tensor * list float * list float)%type.

(** The store after [loss.backward()], [optimizer.step()] and, when it is
    configured, [scheduler.step()], from the store [w1] the forward
    computation ended in; [w0] is the store it started from. *)
Definition stepped (self : MBOLens) (target : Tensor) (w0 w1 : World) : World :=
  adamw_update (accumulate_grad self target w0 w1).

(** l.182-189: the part of the loop body that precedes the bookkeeping. *)
Definition train_iteration (self : MBOLens) (target : Tensor) : M Forwarded :=
  fun w =>
  let w0 := with_grad None w in
  match forward_and_loss self target w0 with
  | (Raise e, w1, ev1) => (Raise e, w1, EvZeroGrad :: ev1)
  | (Ok x, w1, ev1) =>
      let w3 := stepped self target w0 w1 in
      if use_scheduler self then
        match scheduler w3 with
        | None => (Raise (AttributeError "scheduler"), w3,
                   EvZeroGrad :: ev1 ++ [EvBackward; EvOptimizerStep])
        | Some s => (Ok x, steplr_update s w3,
                     EvZeroGrad :: ev1 ++ [EvBackward; EvOptimizerStep; EvSchedulerStep])
        end
      else (Ok x, w3, EvZeroGrad :: ev1 ++ [EvBackward; EvOptimizerStep])
  end.

(** l.191-195: the bookkeeping and the call of [visualize]. *)
Definition bookkeeping (self : MBOLens) (i : Z) (l : Locals) (x : Forwarded) : M Locals :=
  let '(sensor_img, psf, psf_sum, pp, mask, loss, deconv_img, ms, mp) := x in
  let loss_list' := loss_list l ++ [item loss] in
  let itr_list' := itr_list l ++ [i] in
  bind (visualize self i mask sensor_img psf deconv_img itr_list' loss_list' ms mp psf_sum loss)
       (fun ps => ret (mkLocals loss_list' itr_list' (Some ps) (Some pp))).

(** The PSF snapshot [visualize] returns when it renders. *)
Definition snapshot (psf : Tensor) : Tensor :=
  central_crop (index00 (normalize psf)) 128.

(** What [visualize] emits when it renders. *)
Definition render_events (i : Z) (mask sensor_img psf : Tensor) (deconv_img : option Tensor)
    (itr_list : list Z) (loss_list mssim mpsnr : list float) (psf_sum loss : float) : list event :=
  [EvShow (index00 mask) (TitleMask i) "jet";
   EvShow (snapshot psf) (TitlePsf i psf_sum) "gray";
   EvShow (index00 sensor_img) (TitleSensor i) "gray"]
  ++ match deconv_img with
     | Some d => [EvShow (index00 d) (TitleDeconv i) "gray"]
     | None => []
     end
  ++ [EvPlotLoss itr_list loss_list; EvPrintLoss loss i; EvPrintMetrics mssim mpsnr i].

(** [(i + 1) % image_visualize_interval == 0], for a non-zero interval. *)
Definition renders (k i : Z) : bool := Z.eqb ((i + 1) mod k) 0.

Definition is_zero_grad (e : event) : bool :=
  match e with EvZeroGrad => true | _ => false end.

(** The iterations at which a rendering took place, in order. *)
Definition rendered (evs : list event) : list Z := omap rendered_at evs.

(** A trace without what [visualize] emitted. *)
Definition strip (evs : list event) : list event :=
  List.filter (fun e => negb (is_render e)) evs.

(** The store after the scheduler step, when one is configured. *)
Definition scheduled (self : MBOLens) (w3 : World) : World :=
  if use_scheduler self
  then match scheduler w3 with
       | Some s => steplr_update s w3
       | None => w3
       end
  else w3.

(** The events of l.182-189 around the events [ev1] of the forward computation. *)
Definition training_events (self : MBOLens) (ev1 : list event) : list event :=
  EvZeroGrad :: ev1 ++ [EvBackward; EvOptimizerStep]
  ++ (if use_scheduler self then [EvSchedulerStep] else []).

(** What [visualize] emits at iteration [i]. *)
Definition rendering (k i : Z) (mask sensor_img psf : Tensor) (deconv_img : option Tensor)
    (itr_list : list Z) (loss_list mssim mpsnr : list float) (psf_sum loss : float) : list event :=
  if renders k i
  then render_events i mask sensor_img psf deconv_img itr_list loss_list mssim mpsnr psf_sum loss
  else [].

(** How often the deconvolution runs in a forward computation that returns. *)
Definition deconv_calls (self : MBOLens) : nat :=
  if decide (loss_type self = Some "deconv_loss") then 1%nat else 0%nat.

(** The two calls of [cv2.imwrite] made by [save_optimized_psf_mask]. *)
Definition save_events (self : MBOLens) (lg snapshot_psf : Tensor) : list event :=
  [EvImwrite (save_dir self +:+ "/mask" +:+ ".bmp")
     (astype_uint8 (add_scalar (fst (logits_to_doe_profile lg)) 10%float));
   EvImwrite (save_dir self +:+ "/psf" +:+ ".bmp")
     (astype_uint8 (mul_scalar snapshot_psf 255%float))].

(** The object with another [image_visualize_interval]. *)
Definition with_interval (k : Z) (self : MBOLens) : MBOLens :=
  mkMBOLens (model_choice self) (cam_a_poisson self) (cam_b_sqrt self) (camera self)
    (loss_type self) (num_iters self) (lr self) k (save_dir self) (use_scheduler self).

(** The object with other noise coefficients. *)
Definition with_noise (a b : float) (self : MBOLens) : MBOLens :=
  mkMBOLens (model_choice self) a b (camera self)
    (loss_type self) (num_iters self) (lr self) (image_visualize_interval self)
    (save_dir self) (use_scheduler self).



(** The loss a run of the evaluator returned. *)
Definition returned_loss
    (run : result (float * option Tensor * list float * list float) * World * list event)
  : option float :=
  match run with
  | (Ok (loss, _, _, _), _, _) => Some loss
  | (Raise _, _, _) => None
  end.

(** The logits after the optimiser step of an iteration started from [w]. *)
Definition next_logits (self : MBOLens) (target : Tensor) (w : World) : Tensor :=
  snd (AdamW_step (mask_optimizer w) (logits w)
         (Some (autograd (loss_graph self target (with_grad None w)) (logits w)))).

(** The PSF a run of [forward] returned. *)
Definition returned_psf
    (run : result (Tensor * Tensor * float * Tensor * Tensor) * World * list event)
  : option Tensor :=
  match run with
  | (Ok (_, psf, _, _, _), _, _) => Some psf
  | (Raise _, _, _) => None
  end.

(** What the evaluator reports for a raw structural similarity: [1 - raw * 2]
    in the arithmetic of the dtype of [raw], read by [.item()]. *)
Definition reported_ssim (raw : ScalarTensor) : float :=
  dtype_sub (st_dtype raw) 1%float (dtype_mul (st_dtype raw) (st_value raw) 2%float).

(** What it reports for a raw signal-to-noise value: [- raw], which is exact
    in every dtype. *)
Definition reported_psnr (raw : ScalarTensor) : float := (- st_value raw)%float.

(** Two states of the lithography model that differ at most in the gradients
    of the parameters. *)
Definition same_values (lm lm' : LithoModel) : Prop :=
  lm_choice lm' = lm_choice lm
  /\ map p_data (parameters lm') = map p_data (parameters lm)
  /\ map requires_grad (parameters lm') = map requires_grad (parameters lm)
  /\ map p_dict (parameters lm') = map p_dict (parameters lm).



(** ** Vocabulary of the further properties *)

Definition is_scheduler_step (e : event) : bool :=
  match e with EvSchedulerStep => true | _ => false end.

Definition is_show (e : event) : bool :=
  match e with EvShow _ _ _ => true | _ => false end.

(** [self.scheduler] exists whenever the object is configured to use it. *)
Definition scheduler_ready (self : MBOLens) (w : World) : Prop :=
  use_scheduler self = true -> is_Some (scheduler w).

(** The arguments of a call of [plot_loss]. *)
Definition plot_args (e : event) : option (list Z * list float) :=
  match e with
  | EvPlotLoss itr_list loss_list => Some (itr_list, loss_list)
  | _ => None
  end.

(** The arguments of the calls of [plot_loss], in order. *)
Definition plotted (evs : list event) : list (list Z * list float) :=
  omap plot_args evs.

(** The calls of [cv2.imwrite], in order. *)
Definition imwrite_calls (evs : list event) : list event := List.filter is_imwrite evs.

(** Whether an event is a call of [cv2.imwrite] that wrote its file. *)
Definition wrote_file (e : event) : bool :=
  match e with
  | EvImwrite path img => cv2_imwrite path img
  | _ => false
  end.

(** The files written: the calls of [cv2.imwrite] that returned [True]. *)
Definition files_written (evs : list event) : list event := List.filter wrote_file evs.

(** Every parameter that requires a gradient has one. *)
Definition has_grads (lm : LithoModel) : Prop :=
  Forall (fun p => requires_grad p = true -> is_Some (p_grad p)) (parameters lm).

Definition is_backward (e : event) : bool :=
  match e with EvBackward => true | _ => false end.

(** The calls [zero_grad()], [backward()] and [step()] of a trace, in order. *)
Definition training_steps (evs : list event) : list event :=
  List.filter (fun e => is_zero_grad e || is_backward e || is_optimizer_step e) evs.

(** What is left of an iteration whose forward computation raised. *)
Definition unfinished {A : Type} (r : result A) : list event :=
  match r with
  | Raise RuntimeError_reraise | Raise Exception_ => [EvZeroGrad]
  | _ => []
  end.

(** [n] full iterations. *)
Definition full_iterations (n : nat) : list event :=
  concat (repeat [EvZeroGrad; EvBackward; EvOptimizerStep] n).

End Vocabulary.

(** * Verification *)

(** A fact about every kind of event, settled kind by kind. *)
Ltac event_cases := intros []; (reflexivity || discriminate).

Section Verification.
Context `{Collaborators}.

(** ** The camera pipeline in closed form *)

Lemma get_psf_spec (self : CameraPipeline) (lm : LithoModel) (w : World) :
  get_psf self lm w =
  let mask := fst (get_doe_sample (logits w) (rng w)) in
  let psf := psf_of self lm w in
  (if torch_isnan_any psf
   then Raise RuntimeError_reraise
   else Ok (psf, torch_sum psf, print_pred_of self lm w, mask),
   with_rng (snd (get_doe_sample (logits w) (rng w))) w,
   if use_litho_model_flag self then [EvLithoModel mask] else []).
Proof.
  unfold get_psf, psf_of, print_pred_of, doe_get_doe_sample, litho_model_call, bind, emit, ret, raise.
  destruct (get_doe_sample (logits w) (rng w)) as [mask r]; cbn [fst snd].
  destruct (use_litho_model_flag self); cbn;
    destruct (torch_isnan_any _); reflexivity.
Qed.

Lemma forward_spec (self : CameraPipeline) (target : Tensor) (lm : LithoModel) (w : World) :
  forward self target lm w =
  let mask := fst (get_doe_sample (logits w) (rng w)) in
  let r := snd (get_doe_sample (logits w) (rng w)) in
  let psf := psf_of self lm w in
  let img := conv2d target psf true in
  let noise := sensor_noise img 0.004%float 0.02%float r in
  if torch_isnan_any psf
  then (Raise RuntimeError_reraise, with_rng r w, litho_events self w)
  else (Ok (tensor_add img (fst noise), psf, torch_sum psf, print_pred_of self lm w, mask),
        with_rng (snd noise) w, litho_events self w).
Proof.
  unfold forward, bind. rewrite get_psf_spec. cbv zeta. fold (litho_events self w).
  destruct (torch_isnan_any _); [reflexivity|].
  unfold sensor_noise_call, ret; cbn [rng with_rng].
  destruct (sensor_noise _ _ _ _) as [noise r2]; cbn [fst snd].
  rewrite !app_nil_r. reflexivity.
Qed.

(** ** The objective evaluator in closed form *)

Lemma calculate_loss_cbr (self : MBOLens) (cam_img target psf : Tensor) (w : World) :
  loss_type self = Some "cbr" ->
  calculate_loss self cam_img target psf w =
  (Ok ((- torch_log (center_to_background_ratio psf 10))%float, None,
       [reported_ssim (SSIMLoss 1 cam_img target)],
       [reported_psnr (PSNRLoss 1%float cam_img target)]), w, []).
Proof.
  intros Hlt. unfold calculate_loss. rewrite Hlt.
  destruct (decide _) as [_|Hne]; [reflexivity | contradiction].
Qed.

Lemma calculate_loss_deconv (self : MBOLens) (cam_img target psf : Tensor) (w : World) :
  loss_type self = Some "deconv_loss" ->
  calculate_loss self cam_img target psf w =
  let d := torch_richardson_lucy_fft cam_img psf in
  (Ok (SmoothL1Loss 0.1%float d target, Some d,
       [reported_ssim (SSIMLoss 1 cam_img target); reported_ssim (SSIMLoss 1 d target)],
       [reported_psnr (PSNRLoss 1%float cam_img target);
        reported_psnr (PSNRLoss 1%float d target)]),
   w, [EvDeconv cam_img psf]).
Proof.
  intros Hlt. unfold calculate_loss. rewrite Hlt.
  destruct (decide (Some "deconv_loss" = Some "cbr")) as [Heq|_]; [discriminate Heq|].
  destruct (decide _) as [_|Hne]; [reflexivity | contradiction].
Qed.

Lemma calculate_loss_wrong_type (self : MBOLens) (cam_img target psf : Tensor) (w : World) :
  loss_type self <> Some "cbr" ->
  loss_type self <> Some "deconv_loss" ->
  calculate_loss self cam_img target psf w =
  (Raise Exception_, w, [EvPrintWrongType (loss_type self)]).
Proof.
  intros H1 H2. unfold calculate_loss.
  destruct (decide _) as [Heq|_]; [contradiction|].
  destruct (decide _) as [Heq|_]; [contradiction|].
  reflexivity.
Qed.

Lemma calculate_loss_world (self : MBOLens) (cam_img target psf : Tensor) (w : World) :
  snd (fst (calculate_loss self cam_img target psf w)) = w.
Proof.
  unfold calculate_loss.
  destruct (decide _); [reflexivity|].
  destruct (decide _); reflexivity.
Qed.

(** ** One iteration of the loop *)

Lemma forward_and_loss_spec (self : MBOLens) (target : Tensor) (w : World) :
  forward_and_loss self target w =
  match forward (camera self) target (litho_model w) w with
  | (Raise e, w1, ev1) => (Raise e, w1, ev1)
  | (Ok (sensor_img, psf, psf_sum, pp, mask), w1, ev1) =>
      match calculate_loss self sensor_img target psf w1 with
      | (Raise e, w2, ev2) => (Raise e, w2, ev1 ++ ev2)
      | (Ok (loss, deconv_img, ms, mp), w2, ev2) =>
          (Ok (sensor_img, psf, psf_sum, pp, mask, loss, deconv_img, ms, mp), w2, ev1 ++ ev2)
      end
  end.
Proof.
  unfold forward_and_loss, bind, gets, ret. cbn [app].
  destruct (forward _ _ _ _) as [[[x|e] w1] ev1]; [|reflexivity].
  destruct x as [[[[sensor_img psf] psf_sum] pp] mask].
  destruct (calculate_loss _ _ _ _ _) as [[[y|e] w2] ev2]; [|reflexivity].
  destruct y as [[[loss deconv_img] ms] mp].
  rewrite app_nil_r. reflexivity.
Qed.

Lemma forward_world (self : CameraPipeline) (target : Tensor) (lm : LithoModel) (w : World) :
  same_but_rng w (snd (fst (forward self target lm w))).
Proof.
  rewrite forward_spec. cbv zeta.
  destruct (torch_isnan_any _); reflexivity.
Qed.

Lemma forward_and_loss_world (self : MBOLens) (target : Tensor) (w : World) :
  same_but_rng w (snd (fst (forward_and_loss self target w))).
Proof.
  rewrite forward_and_loss_spec.
  pose proof (forward_world (camera self) target (litho_model w) w) as Hf.
  destruct (forward _ _ _ _) as [[[x|e] w1] ev1]; cbn [fst snd] in *; [|exact Hf].
  destruct x as [[[[sensor_img psf] psf_sum] pp] mask].
  pose proof (calculate_loss_world self sensor_img target psf w1) as Hc.
  destruct (calculate_loss _ _ _ _ _) as [[[y|e] w2] ev2]; cbn [fst snd] in *; subst w2.
  - destruct y as [[[loss deconv_img] ms] mp]. exact Hf.
  - exact Hf.
Qed.

Lemma calculate_loss_events (self : MBOLens) (cam_img target psf : Tensor) (w : World) :
  Forall (fun e => is_forward_event e = true) (snd (calculate_loss self cam_img target psf w)).
Proof.
  unfold calculate_loss.
  destruct (decide _); [constructor|].
  destruct (decide _); repeat constructor.
Qed.

Lemma forward_events (self : CameraPipeline) (target : Tensor) (lm : LithoModel) (w : World) :
  snd (forward self target lm w) = litho_events self w.
Proof.
  rewrite forward_spec. cbv zeta. destruct (torch_isnan_any _); reflexivity.
Qed.

Lemma litho_events_forward (self : CameraPipeline) (w : World) :
  Forall (fun e => is_forward_event e = true) (litho_events self w).
Proof.
  unfold litho_events. destruct (use_litho_model_flag self); repeat constructor.
Qed.

Lemma forward_and_loss_events (self : MBOLens) (target : Tensor) (w : World) :
  Forall (fun e => is_forward_event e = true) (snd (forward_and_loss self target w)).
Proof.
  rewrite forward_and_loss_spec.
  pose proof (forward_events (camera self) target (litho_model w) w) as Hf.
  pose proof (litho_events_forward (camera self) w) as Hl.
  destruct (forward _ _ _ _) as [[[x|e] w1] ev1]; cbn [fst snd] in *; subst ev1; [|exact Hl].
  destruct x as [[[[sensor_img psf] psf_sum] pp] mask].
  pose proof (calculate_loss_events self sensor_img target psf w1) as Hc.
  destruct (calculate_loss _ _ _ _ _) as [[[y|e] w2] ev2]; cbn [fst snd] in *.
  - destruct y as [[[loss deconv_img] ms] mp]. apply Forall_app; split; assumption.
  - apply Forall_app; split; assumption.
Qed.

Lemma optim_body_split (self : MBOLens) (target : Tensor) (i : Z) (l : Locals) (w : World) :
  optim_body self target i l w =
  bind (train_iteration self target) (bookkeeping self i l) w.
Proof.
  unfold optim_body, train_iteration, stepped, bind at 1 2 3 4 5.
  unfold zero_grad, backward, optimizer_step, scheduler_step, bind, modify, emit, gets, ret, raise.
  cbn [id].
  destruct (forward_and_loss _ _ _) as [[[x|e] w1] ev1]; [|reflexivity].
  destruct x as [[[[[[[[sensor_img psf] psf_sum] pp] mask] loss] deconv_img] ms] mp].
  destruct (use_scheduler self).
  - destruct (scheduler _) as [s|]; [|cbn [app]; rewrite ?app_nil_r; reflexivity].
    unfold bookkeeping, bind, ret.
    destruct (visualize _ _ _ _ _ _ _ _ _ _ _ _ _) as [[[ps|e] w5] ev5];
      cbn [app]; rewrite <- ?app_assoc; cbn [app]; rewrite ?app_nil_r; reflexivity.
  - unfold bookkeeping, bind, ret.
    destruct (visualize _ _ _ _ _ _ _ _ _ _ _ _ _) as [[[ps|e] w5] ev5];
      cbn [app]; rewrite <- ?app_assoc; cbn [app]; rewrite ?app_nil_r; reflexivity.
Qed.

(** ** Diagnostics in closed form *)

Lemma visualize_spec (self : MBOLens) (i : Z) (mask sensor_img psf : Tensor)
    (deconv_img : option Tensor) (itr_list : list Z) (loss_list mssim mpsnr : list float)
    (psf_sum loss : float) (w : World) :
  visualize self i mask sensor_img psf deconv_img itr_list loss_list mssim mpsnr psf_sum loss w =
  if decide (image_visualize_interval self = 0) then (Raise ZeroDivisionError, w, [])
  else if renders (image_visualize_interval self) i
       then (Ok (Some (snapshot psf)), w,
             render_events i mask sensor_img psf deconv_img itr_list loss_list mssim mpsnr psf_sum loss)
       else (Ok None, w, []).
Proof.
  unfold visualize, renders, render_events, snapshot.
  destruct (decide (image_visualize_interval self = 0)); [reflexivity|].
  destruct (decide _) as [Hm|Hm].
  - rewrite Hm. cbn [Z.eqb]. destruct deconv_img; reflexivity.
  - apply Z.eqb_neq in Hm. rewrite Hm. reflexivity.
Qed.

(** ** Counting events *)

Lemma count_app (p : event -> bool) (a b : list event) :
  count p (a ++ b) = (count p a + count p b)%nat.
Proof. unfold count. rewrite List.filter_app, length_app. reflexivity. Qed.

Lemma count_none (p q : event -> bool) (evs : list event) :
  (forall e, q e = true -> p e = false) ->
  Forall (fun e => q e = true) evs ->
  count p evs = 0%nat.
Proof.
  intros Hpq Hall. unfold count.
  induction Hall as [|e evs He _ IH]; [reflexivity|].
  cbn [List.filter]. rewrite (Hpq e He). exact IH.
Qed.

Lemma rendered_app (a b : list event) : rendered (a ++ b) = rendered a ++ rendered b.
Proof. apply omap_app. Qed.

Lemma rendered_none (q : event -> bool) (evs : list event) :
  (forall e, q e = true -> rendered_at e = None) ->
  Forall (fun e => q e = true) evs ->
  rendered evs = [].
Proof.
  intros Hq Hall. unfold rendered.
  induction Hall as [|e evs He _ IH]; [reflexivity|].
  cbn [omap list_omap]. rewrite (Hq e He). exact IH.
Qed.

Lemma strip_app (a b : list event) : strip (a ++ b) = strip a ++ strip b.
Proof. apply List.filter_app. Qed.


Lemma strip_other (evs : list event) :
  Forall (fun e => is_render e = false) evs -> strip evs = evs.
Proof.
  intros Hall. unfold strip.
  induction Hall as [|e evs He _ IH]; [reflexivity|].
  cbn [List.filter]. rewrite He. cbn [negb]. f_equal. exact IH.
Qed.

Lemma render_events_render i mask sensor_img psf deconv_img itr_list loss_list mssim mpsnr psf_sum loss :
  Forall (fun e => is_render e = true)
    (render_events i mask sensor_img psf deconv_img itr_list loss_list mssim mpsnr psf_sum loss).
Proof. unfold render_events. destruct deconv_img; repeat constructor. Qed.

Lemma render_events_rendered i mask sensor_img psf deconv_img itr_list loss_list mssim mpsnr psf_sum loss :
  rendered (render_events i mask sensor_img psf deconv_img itr_list loss_list mssim mpsnr psf_sum loss)
  = [i].
Proof. unfold render_events. destruct deconv_img; reflexivity. Qed.

(** ** An iteration that returns *)

Lemma optim_body_ok (self : MBOLens) (target : Tensor) (i : Z) (l l' : Locals)
    (w w' : World) (evs : list event) :
  optim_body self target i l w = (Ok l', w', evs) ->
  exists sensor_img psf psf_sum pp mask loss deconv_img ms mp w1 ev1,
    forward_and_loss self target (with_grad None w)
      = (Ok (sensor_img, psf, psf_sum, pp, mask, loss, deconv_img, ms, mp), w1, ev1)
    /\ image_visualize_interval self <> 0
    /\ l' = mkLocals (loss_list l ++ [loss]) (itr_list l ++ [i])
               (Some (if renders (image_visualize_interval self) i
                      then Some (snapshot psf) else None))
               (Some pp)
    /\ w' = scheduled self (stepped self target (with_grad None w) w1)
    /\ evs = training_events self ev1
             ++ (if renders (image_visualize_interval self) i
                 then render_events i mask sensor_img psf deconv_img
                        (itr_list l ++ [i]) (loss_list l ++ [loss]) ms mp psf_sum loss
                 else []).
Proof.
  rewrite optim_body_split. unfold bind at 1, train_iteration, scheduled, training_events.
  destruct (forward_and_loss _ _ _) as [[[x|e] w1] ev1]; [|discriminate].
  destruct x as [[[[[[[[sensor_img psf] psf_sum] pp] mask] loss] deconv_img] ms] mp].
  intros Hrun.
  exists sensor_img, psf, psf_sum, pp, mask, loss, deconv_img, ms, mp, w1, ev1.
  split; [reflexivity|].
  revert Hrun.
  destruct (use_scheduler self); [destruct (scheduler _) as [s|]; [|discriminate]|];
    unfold bookkeeping, bind, ret; rewrite visualize_spec;
    (destruct (decide _) as [Hz|Hz]; [discriminate|]);
    destruct (renders _ _); intros [= <- <- <-];
    unfold render_events, item; cbn [app]; rewrite <- ?List.app_assoc; cbn [app];
    rewrite ?app_nil_r;
    repeat split; (assumption || reflexivity).
Qed.

Lemma training_events_steps (self : MBOLens) (ev1 : list event) :
  Forall (fun e => is_forward_event e = true) ev1 ->
  count is_optimizer_step (training_events self ev1) = 1%nat
  /\ count is_zero_grad (training_events self ev1) = 1%nat
  /\ rendered (training_events self ev1) = []
  /\ strip (training_events self ev1) = training_events self ev1.
Proof.
  intros Hev. unfold training_events.
  assert (Hr : Forall (fun e => is_render e = false) ev1).
  { eapply Forall_impl; [exact Hev|]. intros [] ?; (reflexivity || discriminate). }
  repeat split.
  - change (EvZeroGrad :: ?x) with ([EvZeroGrad] ++ x).
    rewrite !count_app, (count_none is_optimizer_step is_forward_event ev1); [|event_cases|exact Hev].
    destruct (use_scheduler self); reflexivity.
  - change (EvZeroGrad :: ?x) with ([EvZeroGrad] ++ x).
    rewrite !count_app, (count_none is_zero_grad is_forward_event ev1); [|event_cases|exact Hev].
    destruct (use_scheduler self); reflexivity.
  - change (EvZeroGrad :: ?x) with ([EvZeroGrad] ++ x).
    rewrite !rendered_app, (rendered_none is_forward_event ev1); [|event_cases|exact Hev].
    destruct (use_scheduler self); reflexivity.
  - change (EvZeroGrad :: ?x) with ([EvZeroGrad] ++ x).
    rewrite !strip_app, (strip_other ev1 Hr).
    destruct (use_scheduler self); reflexivity.
Qed.

Lemma rendering_facts k i mask sensor_img psf deconv_img itr_list loss_list mssim mpsnr psf_sum loss :
  let evs := rendering k i mask sensor_img psf deconv_img itr_list loss_list mssim mpsnr psf_sum loss in
  Forall (fun e => is_render e = true) evs
  /\ rendered evs = (if renders k i then [i] else []).
Proof.
  unfold rendering. destruct (renders k i).
  - split; [apply render_events_render | apply render_events_rendered].
  - split; [constructor | reflexivity].
Qed.

Lemma count_render_other (p : event -> bool) (evs : list event) :
  (forall e, is_render e = true -> p e = false) ->
  Forall (fun e => is_render e = true) evs ->
  count p evs = 0%nat.
Proof. apply count_none. Qed.

Lemma litho_events_no_deconv (self : CameraPipeline) (w : World) :
  count is_deconv_call (litho_events self w) = 0%nat.
Proof. unfold litho_events. destruct (use_litho_model_flag self); reflexivity. Qed.

Lemma forward_and_loss_ok_cases (self : MBOLens) (target : Tensor) (w w1 : World)
    (x : Forwarded) (ev1 : list event) :
  forward_and_loss self target w = (Ok x, w1, ev1) ->
  loss_type self = Some "cbr" \/ loss_type self = Some "deconv_loss".
Proof.
  rewrite forward_and_loss_spec.
  destruct (forward _ _ _ _) as [[[y|e] w2] ev2]; [|discriminate].
  destruct y as [[[[sensor_img psf] psf_sum] pp] mask].
  destruct (decide (loss_type self = Some "cbr")) as [|H1]; [left; assumption|].
  destruct (decide (loss_type self = Some "deconv_loss")) as [|H2]; [right; assumption|].
  rewrite calculate_loss_wrong_type by assumption. discriminate.
Qed.

Lemma forward_and_loss_deconv_calls (self : MBOLens) (target : Tensor) (w w1 : World)
    (x : Forwarded) (ev1 : list event) :
  forward_and_loss self target w = (Ok x, w1, ev1) ->
  count is_deconv_call ev1 = deconv_calls self.
Proof.
  intros Hrun. pose proof (forward_and_loss_ok_cases _ _ _ _ _ _ Hrun) as Hlt.
  revert Hrun. rewrite forward_and_loss_spec.
  pose proof (forward_events (camera self) target (litho_model w) w) as Hev.
  destruct (forward _ _ _ _) as [[[y|e] w2] ev2]; [|discriminate].
  destruct y as [[[[sensor_img psf] psf_sum] pp] mask]. cbn [snd] in Hev. subst ev2.
  unfold deconv_calls.
  destruct Hlt as [Hlt|Hlt].
  - rewrite calculate_loss_cbr by assumption. intros [= <- <- <-].
    rewrite count_app, litho_events_no_deconv, Hlt. reflexivity.
  - rewrite calculate_loss_deconv by assumption. cbv zeta. intros [= <- <- <-].
    rewrite count_app, litho_events_no_deconv, Hlt. reflexivity.
Qed.

(** ** The loop *)

Lemma for_each_app {L : Type} (body : Z -> L -> M L) (a b : list Z) (l : L) (w : World) :
  for_each body (a ++ b) l w = bind (for_each body a l) (for_each body b) w.
Proof.
  revert l w. induction a as [|i a IH]; intros l w; cbn [for_each app].
  - unfold bind, ret. destruct (for_each body b l w) as [[r w'] evs]. reflexivity.
  - unfold bind. destruct (body i l w) as [[[l1|e] w1] ev1]; [|reflexivity].
    rewrite IH. unfold bind.
    destruct (for_each body a l1 w1) as [[[l2|e] w2] ev2]; [|reflexivity].
    destruct (for_each body b l2 w2) as [[r w3] ev3].
    rewrite List.app_assoc. reflexivity.
Qed.

Lemma range_succ (n : nat) :
  range (Z.of_nat (S n)) = range (Z.of_nat n) ++ [Z.of_nat n].
Proof.
  unfold range. rewrite !Nat2Z.id, seq_S, map_app. reflexivity.
Qed.

Lemma range_length (n : Z) : length (range n) = Z.to_nat n.
Proof. unfold range. rewrite length_map, length_seq. reflexivity. Qed.

Lemma range_nonpos (n : Z) : n <= 0 -> range n = [].
Proof.
  intros Hn. unfold range. replace (Z.to_nat n) with 0%nat by lia. reflexivity.
Qed.

Lemma for_each_ok (self : MBOLens) (target : Tensor) (its : list Z) :
  forall (l l' : Locals) (w w' : World) (evs : list event),
  for_each (optim_body self target) its l w = (Ok l', w', evs) ->
  count is_optimizer_step evs = length its
  /\ count is_zero_grad evs = length its
  /\ count is_deconv_call evs = (length its * deconv_calls self)%nat
  /\ length (loss_list l') = (length (loss_list l) + length its)%nat
  /\ itr_list l' = itr_list l ++ its
  /\ rendered evs = List.filter (renders (image_visualize_interval self)) its.
Proof.
  induction its as [|i its IH]; intros l l' w w' evs; cbn [for_each].
  - intros [= <- <- <-]. rewrite app_nil_r, Nat.add_0_r. repeat split; reflexivity.
  - unfold bind.
    destruct (optim_body self target i l w) as [[[l1|e] w1] ev1] eqn:Hbody; [|discriminate].
    destruct (for_each _ its l1 w1) as [[r2 w2] ev2] eqn:Hrest.
    intros [= -> <- <-].
    apply IH in Hrest as (Hs & Hz & Hd & Hl & Hi & Hr).
    apply optim_body_ok in Hbody
      as (sensor_img & psf & psf_sum & pp & mask & loss & deconv_img & ms & mp & w0 & ev0
          & Hfw & Hk & Hl1 & _ & Hev1).
    subst l1 ev1.
    pose proof (forward_and_loss_events self target (with_grad None w)) as Hev.
    rewrite Hfw in Hev; cbn [snd] in Hev.
    destruct (training_events_steps self ev0 Hev) as (Ts & Tz & Tr & _).
    fold (rendering (image_visualize_interval self) i mask sensor_img psf deconv_img
            (itr_list l ++ [i]) (loss_list l ++ [loss]) ms mp psf_sum loss).
    destruct (rendering_facts (image_visualize_interval self) i mask sensor_img psf deconv_img
                (itr_list l ++ [i]) (loss_list l ++ [loss]) ms mp psf_sum loss) as (Rr & Ri).
    cbn [loss_list itr_list] in Hl, Hi.
    rewrite !count_app, !rendered_app, Ts, Tz, Tr, Ri, Hs, Hz, Hd, Hl, Hi, Hr.
    rewrite (count_render_other is_optimizer_step _
               ltac:(event_cases) Rr).
    rewrite (count_render_other is_zero_grad _
               ltac:(event_cases) Rr).
    rewrite (count_render_other is_deconv_call _
               ltac:(event_cases) Rr).
    assert (Hdc : count is_deconv_call (training_events self ev0) = deconv_calls self).
    { unfold training_events. change (EvZeroGrad :: ?x) with ([EvZeroGrad] ++ x).
      rewrite !count_app, (forward_and_loss_deconv_calls _ _ _ _ _ _ Hfw).
      destruct (use_scheduler self); cbn; lia. }
    rewrite Hdc, length_app. cbn [length List.filter app].
    rewrite <- List.app_assoc. cbn [app].
    repeat split; try lia.
    destruct (renders _ i); reflexivity.
Qed.

Lemma for_each_snoc_ok {L : Type} (body : Z -> L -> M L) (a : list Z) (i : Z)
    (l l' : L) (w w' : World) (evs : list event) :
  for_each body (a ++ [i]) l w = (Ok l', w', evs) ->
  exists l1 w1 ev1 ev2,
    for_each body a l w = (Ok l1, w1, ev1)
    /\ body i l1 w1 = (Ok l', w', ev2)
    /\ evs = ev1 ++ ev2.
Proof.
  rewrite for_each_app. unfold bind.
  destruct (for_each body a l w) as [[[l1|e] w1] ev1]; [|discriminate].
  cbn [for_each]. unfold bind, ret.
  destruct (body i l1 w1) as [[[l2|e] w2] ev2] eqn:Hbody; [|discriminate].
  intros [= <- <- <-]. exists l1, w1, ev1, ev2. rewrite app_nil_r.
  repeat split. exact Hbody.
Qed.

(** The loop either ran no iteration, or ended with the iteration
    [num_iters - 1], started from the store [w_last]. *)
Lemma optim_loop_last (self : MBOLens) (target : Tensor) (w w1 : World) (l : Locals)
    (ev1 : list event) :
  optim_loop self target w = (Ok l, w1, ev1) ->
  (num_iters self <= 0 /\ l = mkLocals [] [] None None /\ w1 = w /\ ev1 = [])
  \/ (1 <= num_iters self /\
      exists l_prev w_last ev_prev ev_last,
        for_each (optim_body self target) (range (num_iters self - 1))
          (mkLocals [] [] None None) w = (Ok l_prev, w_last, ev_prev)
        /\ optim_body self target (num_iters self - 1) l_prev w_last = (Ok l, w1, ev_last)
        /\ ev1 = ev_prev ++ ev_last).
Proof.
  unfold optim_loop. intros Hrun.
  destruct (Z_le_gt_dec (num_iters self) 0) as [Hn|Hn].
  - left. rewrite range_nonpos in Hrun by assumption. cbn in Hrun.
    injection Hrun as <- <- <-. repeat split. assumption.
  - right. split; [lia|].
    assert (Hsucc : num_iters self = Z.of_nat (S (Z.to_nat (num_iters self - 1)))) by lia.
    rewrite Hsucc, range_succ in Hrun.
    replace (Z.of_nat (Z.to_nat (num_iters self - 1))) with (num_iters self - 1) in Hrun by lia.
    apply for_each_snoc_ok in Hrun as (l1 & w_last & ev_prev & ev_last & Hprev & Hlast & ->).
    exists l1, w_last, ev_prev, ev_last. repeat split; assumption.
Qed.

(** ** Finalisation *)

Lemma optim_after_loop (self : MBOLens) (target : Tensor) (w w1 : World) (l : Locals)
    (ev1 : list event) :
  optim_loop self target w = (Ok l, w1, ev1) ->
  optim self target w =
  match psf_save l with
  | None => (Raise (UnboundLocalError "psf_save"), w1, ev1)
  | Some None => (Raise (AttributeError "numpy"), w1, ev1)
  | Some (Some s) =>
      match print_pred l with
      | None => (Raise (UnboundLocalError "print_pred"), w1, ev1 ++ save_events self (logits w1) s)
      | Some pp => (Ok (fst (logits_to_doe_profile (logits w1)), pp), w1,
                    ev1 ++ save_events self (logits w1) s)
      end
  end.
Proof.
  intros Hloop. unfold optim, bind at 1. rewrite Hloop.
  destruct (psf_save l) as [[s|]|]; cbn; rewrite ?app_nil_r; try reflexivity.
  destruct (print_pred l) as [pp|]; cbn; reflexivity.
Qed.

Lemma optim_loop_raise (self : MBOLens) (target : Tensor) (w w1 : World) (e : exn)
    (ev1 : list event) :
  optim_loop self target w = (Raise e, w1, ev1) ->
  optim self target w = (Raise e, w1, ev1).
Proof. intros Hloop. unfold optim, bind at 1. rewrite Hloop. reflexivity. Qed.

Lemma renders_last (k n : Z) : renders k (n - 1) = Z.eqb (n mod k) 0.
Proof. unfold renders. replace (n - 1 + 1) with n by lia. reflexivity. Qed.

(** ** Runs that differ in one configuration value *)

Lemma train_iteration_interval (k : Z) (self : MBOLens) (target : Tensor) (w : World) :
  train_iteration (with_interval k self) target w = train_iteration self target w.
Proof. destruct self. reflexivity. Qed.

Lemma optim_with_noise (a b : float) (self : MBOLens) (target : Tensor) (w : World) :
  optim (with_noise a b self) target w = optim self target w.
Proof. destruct self. reflexivity. Qed.

Lemma train_iteration_no_render (self : MBOLens) (target : Tensor) (w : World) :
  Forall (fun e => is_render e = false) (snd (train_iteration self target w)).
Proof.
  unfold train_iteration.
  pose proof (forward_and_loss_events self target (with_grad None w)) as Hev.
  assert (Hr : Forall (fun e => is_render e = false)
                 (snd (forward_and_loss self target (with_grad None w)))).
  { eapply Forall_impl; [exact Hev|]. intros [] ?; (reflexivity || discriminate). }
  destruct (forward_and_loss _ _ _) as [[[x|e] w1] ev1]; cbn [snd] in *.
  - destruct (use_scheduler self); [destruct (scheduler _)|]; cbn [snd];
      constructor; try reflexivity; apply Forall_app; split; try assumption;
      repeat constructor.
  - constructor; [reflexivity | assumption].
Qed.




Lemma isnan_any_false (t : Tensor) :
  torch_isnan_any t = false <-> Forall (fun x => PrimFloat.is_nan x = false) t.
Proof.
  unfold torch_isnan_any. induction t as [|x t IH]; cbn [existsb].
  - split; [constructor | reflexivity].
  - rewrite orb_false_iff, IH. split.
    + intros [Hx Ht]. constructor; assumption.
    + intros Hall. inversion Hall; subst. split; assumption.
Qed.

Lemma optim_body_single (self : MBOLens) (target : Tensor) (i : Z) (l l' : Locals)
    (w w' : World) (evs : list event) :
  optim_body self target i l w = (Ok l', w', evs) ->
  for_each (optim_body self target) [i] l w = (Ok l', w', evs).
Proof.
  intros Hbody. cbn [for_each]. unfold bind, ret. rewrite Hbody, app_nil_r. reflexivity.
Qed.

(** ** A loss type that is not recognised *)

Lemma forward_and_loss_wrong_type (self : MBOLens) (target : Tensor) (w : World) :
  loss_type self <> Some "cbr" ->
  loss_type self <> Some "deconv_loss" ->
  forward_and_loss self target w =
  let r := snd (get_doe_sample (logits w) (rng w)) in
  let psf := psf_of (camera self) (litho_model w) w in
  if torch_isnan_any psf
  then (Raise RuntimeError_reraise, with_rng r w, litho_events (camera self) w)
  else (Raise Exception_,
        with_rng (snd (sensor_noise (conv2d target psf true) 0.004%float 0.02%float r)) w,
        litho_events (camera self) w ++ [EvPrintWrongType (loss_type self)]).
Proof.
  intros H1 H2. rewrite forward_and_loss_spec, forward_spec. cbv zeta.
  destruct (torch_isnan_any _); [reflexivity|].
  rewrite calculate_loss_wrong_type by assumption. reflexivity.
Qed.

Lemma range_pos (n : Z) : 1 <= n -> exists its, range n = 0 :: its.
Proof.
  intros Hn. unfold range. destruct (Z.to_nat n) as [|m] eqn:Hm; [lia|].
  cbn [seq map]. eexists. reflexivity.
Qed.

Lemma litho_events_counts (self : CameraPipeline) (w : World) :
  count is_optimizer_step (litho_events self w) = 0%nat
  /\ count is_zero_grad (litho_events self w) = 0%nat.
Proof. unfold litho_events. destruct (use_litho_model_flag self); split; reflexivity. Qed.

(** ** The logits across an iteration *)

Lemma forward_and_loss_print_pred (self : MBOLens) (target : Tensor) (w w1 : World)
    sensor_img psf psf_sum pp mask loss deconv_img ms mp (ev1 : list event) :
  forward_and_loss self target w
    = (Ok (sensor_img, psf, psf_sum, pp, mask, loss, deconv_img, ms, mp), w1, ev1) ->
  pp = print_pred_of (camera self) (litho_model w) w
  /\ psf = psf_of (camera self) (litho_model w) w.
Proof.
  rewrite forward_and_loss_spec, forward_spec. cbv zeta.
  destruct (torch_isnan_any _); [discriminate|].
  destruct (calculate_loss _ _ _ _ _) as [[[y|e] w2] ev2]; [|discriminate].
  destruct y as [[[loss0 d0] ms0] mp0].
  intros [= _ <- _ <- _ _ _ _ _ _ _]. split; reflexivity.
Qed.

Lemma logits_scheduled (self : MBOLens) (w : World) :
  logits (scheduled self w) = logits w /\ litho_model (scheduled self w) = litho_model w.
Proof.
  unfold scheduled. destruct (use_scheduler self); [|split; reflexivity].
  destruct (scheduler w) as [s|]; [|split; reflexivity].
  unfold steplr_update. destruct (StepLR_step _ _). split; reflexivity.
Qed.

(** What [loss.backward()] and the optimiser step write, field by field. *)
Lemma accumulate_grad_fields (self : MBOLens) (target : Tensor) (w0 w : World) :
  logits (accumulate_grad self target w0 w) = logits w
  /\ logits_grad (accumulate_grad self target w0 w)
     = accumulate (logits_grad w) (autograd (loss_graph self target w0) (logits w))
  /\ mask_optimizer (accumulate_grad self target w0 w) = mask_optimizer w
  /\ scheduler (accumulate_grad self target w0 w) = scheduler w
  /\ rng (accumulate_grad self target w0 w) = rng w
  /\ litho_model (accumulate_grad self target w0 w)
     = (if use_litho_model_flag (camera self)
        then litho_backward (litho_graph self target w0) (litho_model w)
        else litho_model w).
Proof.
  unfold accumulate_grad. destruct (use_litho_model_flag (camera self)); repeat split; reflexivity.
Qed.

Lemma adamw_update_fields (w : World) :
  logits (adamw_update w) = snd (AdamW_step (mask_optimizer w) (logits w) (logits_grad w))
  /\ mask_optimizer (adamw_update w)
     = fst (AdamW_step (mask_optimizer w) (logits w) (logits_grad w))
  /\ logits_grad (adamw_update w) = logits_grad w
  /\ litho_model (adamw_update w) = litho_model w
  /\ scheduler (adamw_update w) = scheduler w
  /\ rng (adamw_update w) = rng w.
Proof. unfold adamw_update. destruct (AdamW_step _ _ _). repeat split; reflexivity. Qed.

Lemma map_imap_keep {A B : Type} (g : A -> B) (l : list A) :
  forall f : nat -> A -> A, (forall j a, g (f j a) = g a) -> map g (imap f l) = map g l.
Proof.
  induction l as [|a l IH]; intros f Hf; [reflexivity|].
  cbn [imap map]. rewrite Hf. f_equal. apply IH. intros j b. apply Hf.
Qed.

Lemma same_values_refl (lm : LithoModel) : same_values lm lm.
Proof. repeat split; reflexivity. Qed.

Lemma same_values_trans (a b c : LithoModel) :
  same_values a b -> same_values b c -> same_values a c.
Proof.
  intros (Hc & Hd & Hr & Hdi) (Hc' & Hd' & Hr' & Hdi'). repeat split; congruence.
Qed.

Lemma litho_backward_same_values (graph : nat -> Tensor -> float) (lm : LithoModel) :
  same_values lm (litho_backward graph lm).
Proof.
  unfold same_values, litho_backward. cbn [lm_choice parameters].
  split; [reflexivity|].
  repeat split; apply map_imap_keep; intros j p; destruct (requires_grad p) eqn:Hr;
    cbn; congruence.
Qed.

Lemma stepped_litho_model (self : MBOLens) (target : Tensor) (w0 w1 : World) :
  litho_model (stepped self target w0 w1)
  = (if use_litho_model_flag (camera self)
     then litho_backward (litho_graph self target w0) (litho_model w1)
     else litho_model w1).
Proof.
  unfold stepped.
  destruct (adamw_update_fields (accumulate_grad self target w0 w1)) as (_ & _ & _ & -> & _).
  apply accumulate_grad_fields.
Qed.

Lemma logits_stepped (self : MBOLens) (target : Tensor) (w w1 : World) :
  same_but_rng (with_grad None w) w1 ->
  logits (stepped self target (with_grad None w) w1) = next_logits self target w
  /\ same_values (litho_model w) (litho_model (stepped self target (with_grad None w) w1)).
Proof.
  unfold same_but_rng. intros Hw1. split.
  - unfold stepped, next_logits.
    destruct (adamw_update_fields (accumulate_grad self target (with_grad None w) w1))
      as (-> & _).
    destruct (accumulate_grad_fields self target (with_grad None w) w1)
      as (-> & -> & -> & _).
    rewrite Hw1. reflexivity.
  - rewrite stepped_litho_model. rewrite Hw1. cbn [litho_model with_rng with_grad].
    destruct (use_litho_model_flag (camera self));
      [apply litho_backward_same_values | apply same_values_refl].
Qed.

Lemma optim_body_logits (self : MBOLens) (target : Tensor) (i : Z) (l l' : Locals)
    (w w' : World) (evs : list event) :
  optim_body self target i l w = (Ok l', w', evs) ->
  logits w' = next_logits self target w
  /\ same_values (litho_model w) (litho_model w')
  /\ print_pred l' = Some (print_pred_of (camera self) (litho_model w) w).
Proof.
  intros Hbody.
  apply optim_body_ok in Hbody
    as (sensor_img & psf & psf_sum & pp & mask & loss & deconv_img & ms & mp & w1 & ev1
        & Hfw & _ & Hl & Hw & _).
  pose proof (forward_and_loss_world self target (with_grad None w)) as Hsame.
  rewrite Hfw in Hsame; cbn [fst snd] in Hsame.
  destruct (logits_stepped self target w w1 Hsame) as (Hlg & Hlm).
  destruct (logits_scheduled self (stepped self target (with_grad None w) w1)) as (Hlg' & Hlm').
  apply forward_and_loss_print_pred in Hfw as (Hpp & _).
  subst w' l'. cbn [print_pred]. rewrite Hlg', Hlm', Hlg, Hpp.
  split; [reflexivity|]. split; [exact Hlm | reflexivity].
Qed.

(** ** What the loop leaves to the finalisation *)

Lemma optim_loop_psf_save (self : MBOLens) (target : Tensor) (w w1 : World) (l : Locals)
    (ev1 : list event) :
  optim_loop self target w = (Ok l, w1, ev1) ->
  1 <= num_iters self ->
  exists l_prev w_last ev_prev ev_last,
    for_each (optim_body self target) (range (num_iters self - 1))
      (mkLocals [] [] None None) w = (Ok l_prev, w_last, ev_prev)
    /\ optim_body self target (num_iters self - 1) l_prev w_last = (Ok l, w1, ev_last)
    /\ psf_save l =
        Some (if Z.eqb ((num_iters self) mod (image_visualize_interval self)) 0
              then Some (snapshot (psf_of (camera self) (litho_model w_last) w_last))
              else None)
    /\ is_Some (print_pred l).
Proof.
  intros Hloop Hn.
  apply optim_loop_last in Hloop
    as [(Hn0 & _)|(_ & l_prev & w_last & ev_prev & ev_last & Hprev & Hbody & _)]; [lia|].
  exists l_prev, w_last, ev_prev, ev_last. split; [exact Hprev|]. split; [exact Hbody|].
  apply optim_body_ok in Hbody
    as (sensor_img & psf & psf_sum & pp & mask & loss & deconv_img & ms & mp & w2 & ev2
        & Hfw & _ & -> & _).
  apply forward_and_loss_print_pred in Hfw as (_ & ->).
  cbn [psf_save print_pred]. rewrite renders_last. split; [reflexivity | eauto].
Qed.

Lemma for_each_no_imwrite (self : MBOLens) (target : Tensor) (its : list Z) :
  forall (l l' : Locals) (w w' : World) (evs : list event),
  for_each (optim_body self target) its l w = (Ok l', w', evs) ->
  count is_imwrite evs = 0%nat.
Proof.
  induction its as [|i its IH]; intros l0 l w w1 ev1; cbn [for_each].
  - intros [= _ _ <-]. reflexivity.
  - unfold bind.
    destruct (optim_body self target i l0 w) as [[[l1|e] w2] ev2] eqn:Hbody; [|discriminate].
    destruct (for_each _ its l1 w2) as [[r3 w3] ev3] eqn:Hrest.
    intros [= -> _ <-]. rewrite count_app, (IH _ _ _ _ _ Hrest), Nat.add_0_r.
    apply optim_body_ok in Hbody
      as (sensor_img & psf & psf_sum & pp & mask & loss & deconv_img & ms & mp & w4 & ev4
          & Hfw & _ & _ & _ & ->).
    pose proof (forward_and_loss_events self target (with_grad None w)) as Hev.
    rewrite Hfw in Hev; cbn [snd] in Hev.
    unfold training_events. change (EvZeroGrad :: ?x) with ([EvZeroGrad] ++ x).
    rewrite !count_app.
    rewrite (count_none is_imwrite is_forward_event ev4
               ltac:(event_cases) Hev).
    fold (rendering (image_visualize_interval self) i mask sensor_img psf deconv_img
            (itr_list l0 ++ [i]) (loss_list l0 ++ [loss]) ms mp psf_sum loss).
    destruct (rendering_facts (image_visualize_interval self) i mask sensor_img psf deconv_img
                (itr_list l0 ++ [i]) (loss_list l0 ++ [loss]) ms mp psf_sum loss) as (Rr & _).
    rewrite (count_render_other is_imwrite _
               ltac:(event_cases) Rr).
    destruct (use_scheduler self); reflexivity.
Qed.

(** ** A PSF with a NaN element *)

Lemma optim_body_nan (self : MBOLens) (target : Tensor) (i : Z) (l : Locals) (w : World) :
  torch_isnan_any (psf_of (camera self) (litho_model w) w) = true ->
  optim_body self target i l w =
  (Raise RuntimeError_reraise,
   with_rng (snd (get_doe_sample (logits w) (rng w))) (with_grad None w),
   EvZeroGrad :: litho_events (camera self) w).
Proof.
  intros Hnan. rewrite optim_body_split. unfold bind, train_iteration.
  rewrite forward_and_loss_spec, forward_spec. cbv zeta.
  change (psf_of (camera self) (litho_model (with_grad None w)) (with_grad None w))
    with (psf_of (camera self) (litho_model w) w).
  rewrite Hnan. reflexivity.
Qed.

Lemma for_each_raise_at {L : Type} (body : Z -> L -> M L) (a b : list Z) (i : Z)
    (l l1 : L) (w w1 w2 : World) (e : exn) (ev1 ev2 : list event) :
  for_each body a l w = (Ok l1, w1, ev1) ->
  body i l1 w1 = (Raise e, w2, ev2) ->
  for_each body (a ++ i :: b) l w = (Raise e, w2, ev1 ++ ev2).
Proof.
  intros Ha Hi. rewrite for_each_app. unfold bind at 1. rewrite Ha.
  cbn [for_each]. unfold bind. rewrite Hi. reflexivity.
Qed.

(** ** The properties of the specification *)

(** C1, as the code has it: the check after the computation of the PSF is for
    NaN only.  A PSF with a NaN element makes [get_psf], and so [forward],
    raise (a bare [raise]); a forward pass that returns returns the PSF
    computed from the print prediction, and no element of it is NaN.
    Infinite elements are not checked.  Nothing catches the exception: the
    loop stops in the iteration whose PSF has a NaN element, before the
    optimiser step of that iteration, and [optim] ends in the exception its
    loop ended in. *)
Theorem forward_psf_nan_check (self : CameraPipeline) (target : Tensor) (lm : LithoModel)
    (w : World) :
  (torch_isnan_any (psf_of self lm w) = true ->
     fst (fst (get_psf self lm w)) = Raise RuntimeError_reraise
     /\ fst (fst (forward self target lm w)) = Raise RuntimeError_reraise)
  /\ (forall sensor_img psf psf_sum pp mask w' evs,
        forward self target lm w = (Ok (sensor_img, psf, psf_sum, pp, mask), w', evs) ->
        psf = torch_pow2 (torch_abs (lens_model pp))
        /\ Forall (fun x => PrimFloat.is_nan x = false) psf)
  /\ (forall (mbo : MBOLens) (done rest : list Z) (i : Z) (l l1 : Locals) (w0 w1 : World)
             (ev1 : list event),
        for_each (optim_body mbo target) done l w0 = (Ok l1, w1, ev1) ->
        torch_isnan_any (psf_of (camera mbo) (litho_model w1) w1) = true ->
        exists w2 ev2,
          for_each (optim_body mbo target) (done ++ i :: rest) l w0
          = (Raise RuntimeError_reraise, w2, ev1 ++ ev2)
          /\ count is_optimizer_step ev2 = 0%nat
          /\ logits w2 = logits w1)
  /\ (forall (mbo : MBOLens) (w0 w1 : World) (e : exn) (evs : list event),
        optim_loop mbo target w0 = (Raise e, w1, evs) ->
        optim mbo target w0 = (Raise e, w1, evs)).
Proof.
  split; [|split; [|split]].
  - intros Hnan. rewrite get_psf_spec, forward_spec. cbv zeta. rewrite Hnan. split; reflexivity.
  - intros sensor_img psf psf_sum pp mask w' evs. rewrite forward_spec. cbv zeta.
    destruct (torch_isnan_any (psf_of self lm w)) eqn:Hnan; [discriminate|].
    intros [= _ <- _ <- _ _ _]. split; [reflexivity|].
    apply isnan_any_false. exact Hnan.
  - intros mbo done rest i l l1 w0 w1 ev1 Hdone Hnan.
    do 2 eexists. split.
    + eapply for_each_raise_at; [exact Hdone|]. apply optim_body_nan. exact Hnan.
    + destruct (litho_events_counts (camera mbo) w1) as (Cs & _).
      change (EvZeroGrad :: ?x) with ([EvZeroGrad] ++ x).
      rewrite count_app, Cs. split; reflexivity.
  - intros mbo w0 w1 e evs. apply optim_loop_raise.
Qed.

(** C7: with [use_litho_model_flag] off, a forward pass never calls the
    lithography model and the print prediction it returns is the mask sample;
    with the flag on, the model is called once, on the mask sample, and the
    print prediction is its result. *)
Theorem litho_model_bypass (self : CameraPipeline) (target : Tensor) (lm : LithoModel)
    (w : World) :
  let sample := fst (get_doe_sample (logits w) (rng w)) in
  (use_litho_model_flag self = false ->
     count is_litho_call (snd (forward self target lm w)) = 0%nat
     /\ forall sensor_img psf psf_sum pp mask w' evs,
         forward self target lm w = (Ok (sensor_img, psf, psf_sum, pp, mask), w', evs) ->
         mask = sample /\ pp = mask)
  /\ (use_litho_model_flag self = true ->
      snd (forward self target lm w) = [EvLithoModel sample]
      /\ forall sensor_img psf psf_sum pp mask w' evs,
          forward self target lm w = (Ok (sensor_img, psf, psf_sum, pp, mask), w', evs) ->
          mask = sample
          /\ pp = litho_forward (lm_choice lm) (map p_data (parameters lm)) mask).
Proof.
  cbv zeta. split; intros Hflag; rewrite forward_events; unfold litho_events; rewrite Hflag;
    (split; [reflexivity|]);
    intros sensor_img psf psf_sum pp mask w' evs; rewrite forward_spec; cbv zeta;
    (destruct (torch_isnan_any _); [discriminate|]);
    unfold print_pred_of; rewrite Hflag; intros [= _ _ _ <- <-]; split; reflexivity.
Qed.

(** C4: in mode 'cbr' the evaluator emits no event (the deconvolution is not
    called), returns no deconvolution result, and its loss is
    [-log(center_to_background_ratio(psf, 10))], the same for every camera
    image and target; in mode 'deconv_loss' it calls the deconvolution once,
    on the camera image and the PSF, and its loss is the smooth-L1 loss
    (beta 0.1) between the result and the target.  An iteration of the loop
    that returns has called the deconvolution once in mode 'deconv_loss' and
    not at all in mode 'cbr'. *)
Theorem calculate_loss_modes (self : MBOLens) (cam_img target psf : Tensor) (w : World) :
  (loss_type self = Some "cbr" ->
     (exists ms mp,
        calculate_loss self cam_img target psf w =
        (Ok ((- torch_log (center_to_background_ratio psf 10))%float, None, ms, mp), w, []))
     /\ (forall cam_img' target' w',
          returned_loss (calculate_loss self cam_img' target' psf w')
          = returned_loss (calculate_loss self cam_img target psf w))
     /\ (forall i l l' w0 w' evs,
          optim_body self target i l w0 = (Ok l', w', evs) ->
          count is_deconv_call evs = 0%nat))
  /\ (loss_type self = Some "deconv_loss" ->
      (exists ms mp,
         calculate_loss self cam_img target psf w =
         (Ok (SmoothL1Loss 0.1%float (torch_richardson_lucy_fft cam_img psf) target,
              Some (torch_richardson_lucy_fft cam_img psf), ms, mp),
          w, [EvDeconv cam_img psf]))
      /\ count is_deconv_call (snd (calculate_loss self cam_img target psf w)) = 1%nat
      /\ (forall i l l' w0 w' evs,
           optim_body self target i l w0 = (Ok l', w', evs) ->
           count is_deconv_call evs = 1%nat)).
Proof.
  split; intros Hlt.
  - split; [|split].
    + rewrite calculate_loss_cbr by assumption. eauto.
    + intros cam_img' target' w'. rewrite !calculate_loss_cbr by assumption. reflexivity.
    + intros i l l' w0 w' evs Hbody.
      apply optim_body_single, for_each_ok in Hbody as (_ & _ & Hd & _).
      rewrite Hd. unfold deconv_calls. rewrite Hlt. reflexivity.
  - split; [|split].
    + rewrite calculate_loss_deconv by assumption. cbv zeta. eauto.
    + rewrite calculate_loss_deconv by assumption. reflexivity.
    + intros i l l' w0 w' evs Hbody.
      apply optim_body_single, for_each_ok in Hbody as (_ & _ & Hd & _).
      rewrite Hd. unfold deconv_calls. rewrite Hlt. reflexivity.
Qed.

(** The arithmetic of the dtype [float64] is the one of Python floats. *)
Lemma dtype_mul_float64 (x y : float) : dtype_mul float64 x y = (x * y)%float.
Proof.
  unfold dtype_mul. cbn [dtype_prec dtype_emax].
  change (SpecFloat.SFmul 53 1024) with FloatAxioms.SF64mul.
  rewrite <- FloatAxioms.mul_spec. apply FloatAxioms.SF2Prim_Prim2SF.
Qed.

Lemma dtype_sub_float64 (x y : float) : dtype_sub float64 x y = (x - y)%float.
Proof.
  unfold dtype_sub. cbn [dtype_prec dtype_emax].
  change (SpecFloat.SFsub 53 1024) with FloatAxioms.SF64sub.
  rewrite <- FloatAxioms.sub_spec. apply FloatAxioms.SF2Prim_Prim2SF.
Qed.

(** C6: the structural metric the evaluator reports is [1 - raw * 2] and the
    signal-to-noise metric is [- raw], with [raw] the 0-dim tensor
    [SSIMLoss(window_size=1)], respectively [PSNRLoss(max_val=1)], returns on
    the sensor image and the target; in mode 'cbr' each list has this one
    entry, in mode 'deconv_loss' each has a second entry, the same metric on
    the deconvolution result and the target.  The expression is evaluated
    on the tensor, before [.item()]: the product by 2 and the difference from
    1 are each the exact result rounded to the dtype of [raw], the negation
    is exact, and [.item()] reads the result unchanged.  For a float64 tensor
    this is the arithmetic of Python floats. *)
Theorem reported_metrics (self : MBOLens) (cam_img target psf : Tensor) (w : World) :
  (loss_type self = Some "cbr" ->
     exists loss deconv_result ms mp,
       calculate_loss self cam_img target psf w = (Ok (loss, deconv_result, ms, mp), w, [])
       /\ ms = [reported_ssim (SSIMLoss 1 cam_img target)]
       /\ mp = [reported_psnr (PSNRLoss 1%float cam_img target)]
       /\ length ms = 1%nat /\ length mp = 1%nat)
  /\ (loss_type self = Some "deconv_loss" ->
      exists loss d ms mp,
        calculate_loss self cam_img target psf w = (Ok (loss, Some d, ms, mp), w, [EvDeconv cam_img psf])
        /\ d = torch_richardson_lucy_fft cam_img psf
        /\ ms = [reported_ssim (SSIMLoss 1 cam_img target); reported_ssim (SSIMLoss 1 d target)]
        /\ mp = [reported_psnr (PSNRLoss 1%float cam_img target);
                 reported_psnr (PSNRLoss 1%float d target)]
        /\ length ms = 2%nat /\ length mp = 2%nat)
  /\ (forall raw : ScalarTensor,
        reported_ssim raw
        = scalar_item (scalar_rsub 1%float (scalar_mul raw 2%float))
        /\ reported_ssim raw
           = FloatOps.SF2Prim
               (SpecFloat.SFsub (dtype_prec (st_dtype raw)) (dtype_emax (st_dtype raw))
                  (FloatOps.Prim2SF 1%float)
                  (FloatOps.Prim2SF
                     (FloatOps.SF2Prim
                        (SpecFloat.SFmul (dtype_prec (st_dtype raw)) (dtype_emax (st_dtype raw))
                           (FloatOps.Prim2SF (st_value raw)) (FloatOps.Prim2SF 2%float)))))
        /\ reported_psnr raw = scalar_item (scalar_neg raw)
        /\ reported_psnr raw = (- st_value raw)%float
        /\ (st_dtype raw = float64 -> reported_ssim raw = (1 - st_value raw * 2)%float)).
Proof.
  split; [|split].
  - intros Hlt. rewrite calculate_loss_cbr by assumption. do 4 eexists.
    repeat split; reflexivity.
  - intros Hlt. rewrite calculate_loss_deconv by assumption. cbv zeta. do 4 eexists.
    repeat split; reflexivity.
  - intros raw. repeat split; try reflexivity.
    intros Hdt. unfold reported_ssim. rewrite Hdt, dtype_mul_float64, dtype_sub_float64.
    reflexivity.
Qed.

(** C5: the forward pass adds [sensor_noise(img, 0.004, 0.02)] to the
    convolved image, whatever [cam_a_poisson] and [cam_b_sqrt] are: two
    objects constructed with different values of these two arguments, and
    nothing else changed, start from the same store, run the same forward
    pass and the same optimisation, with the same events and results. *)
Theorem noise_coefficients_unused (model_choice : string) (flag : bool) (num_iters : Z)
    (lr : float) (use_sched : bool) (interval : Z) (a b a' b' : float) (save_dir : string)
    (loss_type : option string) (r : Rng) (target : Tensor) :
  (forall (cam : CameraPipeline) (lm : LithoModel) (w : World)
          sensor_img psf psf_sum pp mask w' evs,
     forward cam target lm w = (Ok (sensor_img, psf, psf_sum, pp, mask), w', evs) ->
     let img := conv2d target psf true in
     sensor_img = tensor_add img
                    (fst (sensor_noise img 0.004%float 0.02%float
                            (snd (get_doe_sample (logits w) (rng w))))))
  /\ match MBOLens_init model_choice flag num_iters lr use_sched interval a b save_dir loss_type r,
           MBOLens_init model_choice flag num_iters lr use_sched interval a' b' save_dir loss_type r
     with
     | (Ok (self1, w1), ev1), (Ok (self2, w2), ev2) =>
         w1 = w2 /\ ev1 = ev2
         /\ self2 = with_noise a' b' self1
         /\ camera self1 = camera self2
         /\ (forall lm w, forward (camera self1) target lm w = forward (camera self2) target lm w)
         /\ optim self1 target w1 = optim self2 target w2
     | (Raise e1, ev1), (Raise e2, ev2) => e1 = e2 /\ ev1 = ev2
     | _, _ => False
     end.
Proof.
  split.
  - intros cam lm w sensor_img psf psf_sum pp mask w' evs. rewrite forward_spec. cbv zeta.
    destruct (torch_isnan_any _); [discriminate|].
    intros [= <- <- _ _ _ _ _]. reflexivity.
  - unfold MBOLens_init.
    destruct (load_pretrained_litho_model _ _ _) as [[lm'|e] evs]; [|split; reflexivity].
    destruct (DOE_init r) as [lg r'].
    destruct (initialize_optimization lr use_sched) as [[opt sch]|e];
      repeat split; reflexivity.
Qed.

(** C3: with a [loss_type] other than 'cbr' and 'deconv_loss' the evaluator
    reports the wrong type and raises [Exception], whatever its inputs.  A run
    of [optim] then always ends in an exception, without any optimiser step:
    the logits are the initial ones.  With at least one iteration the
    exception is raised in the first iteration, and it is the evaluator's,
    unless the PSF of that first forward pass has a NaN element, in which
    case the camera pipeline has raised before the evaluator is reached. *)
Theorem wrong_loss_type_raises (self : MBOLens) (target : Tensor) (w : World) :
  loss_type self <> Some "cbr" ->
  loss_type self <> Some "deconv_loss" ->
  (forall cam_img tgt psf w0,
     calculate_loss self cam_img tgt psf w0
     = (Raise Exception_, w0, [EvPrintWrongType (loss_type self)]))
  /\ (exists e w' evs,
        optim self target w = (Raise e, w', evs)
        /\ count is_optimizer_step evs = 0%nat
        /\ logits w' = logits w
        /\ (1 <= num_iters self ->
            count is_zero_grad evs = 1%nat
            /\ e = (if torch_isnan_any (psf_of (camera self) (litho_model w) w)
                    then RuntimeError_reraise else Exception_))).
Proof.
  intros H1 H2. split.
  - intros cam_img tgt psf w0. apply calculate_loss_wrong_type; assumption.
  - destruct (Z_le_gt_dec 1 (num_iters self)) as [Hn|Hn].
    + destruct (range_pos _ Hn) as [its Hits].
      destruct (litho_events_counts (camera self) (with_grad None w)) as (Cs & Cz).
      assert (Hloop : forall e w1 ev1,
                train_iteration self target w = (Raise e, w1, ev1) ->
                optim self target w = (Raise e, w1, ev1)).
      { intros e w1 ev1 Htrain. apply optim_loop_raise.
        unfold optim_loop. rewrite Hits. cbn [for_each]. unfold bind at 1.
        rewrite optim_body_split. unfold bind at 1. rewrite Htrain. reflexivity. }
      pose proof (forward_and_loss_wrong_type self target (with_grad None w) H1 H2) as Hfw.
      cbv zeta in Hfw.
      change (psf_of (camera self) (litho_model (with_grad None w)) (with_grad None w))
        with (psf_of (camera self) (litho_model w) w) in Hfw.
      destruct (torch_isnan_any (psf_of (camera self) (litho_model w) w)).
      * do 3 eexists. split; [apply Hloop; unfold train_iteration; rewrite Hfw; reflexivity|].
        change (EvZeroGrad :: ?x) with ([EvZeroGrad] ++ x).
        rewrite !count_app, Cs, Cz. repeat split; reflexivity.
      * do 3 eexists. split; [apply Hloop; unfold train_iteration; rewrite Hfw; reflexivity|].
        change (EvZeroGrad :: ?x) with ([EvZeroGrad] ++ x).
        rewrite !count_app, Cs, Cz. repeat split; reflexivity.
    + exists (UnboundLocalError "psf_save"), w, [].
      split; [|split; [reflexivity | split; [reflexivity | intros; lia]]].
      assert (Hloop : optim_loop self target w = (Ok (mkLocals [] [] None None), w, [])).
      { unfold optim_loop. rewrite range_nonpos by lia. reflexivity. }
      rewrite (optim_after_loop _ _ _ _ _ _ Hloop). reflexivity.
Qed.






(** C9: [visualize] returns the PSF snapshot at the iterations it renders
    and [None] at the others.  After a loop that ran to its end: without any
    iteration [psf_save] is unbound and [optim] raises [UnboundLocalError];
    otherwise [psf_save] is what [visualize] returned in the last iteration,
    and when [num_iters] is not a multiple of the interval this is [None] and
    [save_optimized_psf_mask] raises [AttributeError] on [None.numpy()],
    before any call of [cv2.imwrite]; when it is a multiple, the two calls
    are made and [optim] returns.  So [optim] returns only when
    [num_iters >= 1] and [num_iters % interval == 0]. *)
Theorem finalization_needs_last_rendering (self : MBOLens) (target : Tensor) (w : World) :
  (forall r w' evs, optim self target w = (Ok r, w', evs) ->
     1 <= num_iters self /\ (num_iters self) mod (image_visualize_interval self) = 0)
  /\ (forall l w1 ev1, optim_loop self target w = (Ok l, w1, ev1) ->
       (num_iters self <= 0 ->
          optim self target w = (Raise (UnboundLocalError "psf_save"), w1, ev1))
       /\ (1 <= num_iters self ->
           exists l_prev w_last ev_prev ev_last,
             for_each (optim_body self target) (range (num_iters self - 1))
               (mkLocals [] [] None None) w = (Ok l_prev, w_last, ev_prev)
             /\ optim_body self target (num_iters self - 1) l_prev w_last = (Ok l, w1, ev_last)
             /\ psf_save l =
                 Some (if Z.eqb ((num_iters self) mod (image_visualize_interval self)) 0
                       then Some (snapshot (psf_of (camera self) (litho_model w_last) w_last))
                       else None))
       /\ (1 <= num_iters self ->
           (num_iters self) mod (image_visualize_interval self) <> 0 ->
           optim self target w = (Raise (AttributeError "numpy"), w1, ev1)
           /\ count is_imwrite ev1 = 0%nat)
       /\ (1 <= num_iters self ->
           (num_iters self) mod (image_visualize_interval self) = 0 ->
           exists s pp,
             psf_save l = Some (Some s)
             /\ optim self target w =
                 (Ok (fst (logits_to_doe_profile (logits w1)), pp), w1,
                  ev1 ++ save_events self (logits w1) s)))
  /\ (forall i mask sensor_img psf deconv_img itr_list loss_list mssim mpsnr psf_sum loss w0,
       image_visualize_interval self <> 0 ->
       fst (fst (visualize self i mask sensor_img psf deconv_img itr_list loss_list
                   mssim mpsnr psf_sum loss w0))
       = Ok (if Z.eqb ((i + 1) mod (image_visualize_interval self)) 0
             then Some (snapshot psf) else None)).
Proof.
  split; [|split].
  - intros r w' evs Hrun.
    destruct (optim_loop self target w) as [[[l|e] w1] ev1] eqn:Hloop;
      [|rewrite (optim_loop_raise _ _ _ _ _ _ Hloop) in Hrun; discriminate].
    rewrite (optim_after_loop _ _ _ _ _ _ Hloop) in Hrun.
    destruct (Z_le_gt_dec 1 (num_iters self)) as [Hn|Hn].
    + split; [exact Hn|].
      destruct (optim_loop_psf_save _ _ _ _ _ _ Hloop Hn) as (? & ? & ? & ? & _ & _ & Hps & _).
      rewrite Hps in Hrun.
      destruct (Z.eqb_spec ((num_iters self) mod (image_visualize_interval self)) 0);
        [assumption | discriminate].
    + apply optim_loop_last in Hloop as [(_ & -> & _)|(Hn1 & _)]; [discriminate | lia].
  - intros l w1 ev1 Hloop. split; [|split; [|split]].
    + intros Hn. rewrite (optim_after_loop _ _ _ _ _ _ Hloop).
      apply optim_loop_last in Hloop as [(_ & -> & _)|(Hn1 & _)]; [reflexivity | lia].
    + intros Hn. destruct (optim_loop_psf_save _ _ _ _ _ _ Hloop Hn) as (l_prev & w_last & ev_prev & ev_last & H1 & H2 & H3 & _).
      exists l_prev, w_last, ev_prev, ev_last. repeat split; assumption.
    + intros Hn Hmod. rewrite (optim_after_loop _ _ _ _ _ _ Hloop).
      destruct (optim_loop_psf_save _ _ _ _ _ _ Hloop Hn) as (? & ? & ? & ? & _ & _ & Hps & _).
      rewrite Hps. apply Z.eqb_neq in Hmod. rewrite Hmod. split; [reflexivity|].
      exact (for_each_no_imwrite _ _ _ _ _ _ _ _ Hloop).
    + intros Hn Hmod. rewrite (optim_after_loop _ _ _ _ _ _ Hloop).
      destruct (optim_loop_psf_save _ _ _ _ _ _ Hloop Hn) as (? & ? & ? & ? & _ & _ & Hps & [pp Hpp]).
      rewrite Hps, Hpp, Hmod. cbn [Z.eqb]. do 2 eexists. split; reflexivity.
  - intros i mask sensor_img psf deconv_img itr_list loss_list mssim mpsnr psf_sum loss w0 Hk.
    rewrite visualize_spec. destruct (decide _) as [|_]; [contradiction|].
    unfold renders. destruct (Z.eqb _ 0); reflexivity.
Qed.

(** C10: when [optim] returns, the print prediction it returns is the one
    the forward pass of the last iteration computed, from the logits of the
    store [w_last] that iteration started in, before its optimiser step; the
    logits of the final store are those after this step, and the returned
    profile is rendered from them. *)
Theorem returned_values_logits_states (self : MBOLens) (target : Tensor) (w w' : World)
    (mask_logits pp : Tensor) (evs : list event) :
  optim self target w = (Ok (mask_logits, pp), w', evs) ->
  exists l_prev w_last ev_prev,
    for_each (optim_body self target) (range (num_iters self - 1))
      (mkLocals [] [] None None) w = (Ok l_prev, w_last, ev_prev)
    /\ pp = print_pred_of (camera self) (litho_model w_last) w_last
    /\ logits w' = next_logits self target w_last
    /\ mask_logits = fst (logits_to_doe_profile (logits w')).
Proof.
  intros Hrun.
  destruct (optim_loop self target w) as [[[l|e] w1] ev1] eqn:Hloop;
    [|rewrite (optim_loop_raise _ _ _ _ _ _ Hloop) in Hrun; discriminate].
  rewrite (optim_after_loop _ _ _ _ _ _ Hloop) in Hrun.
  destruct (Z_le_gt_dec 1 (num_iters self)) as [Hn|Hn].
  - destruct (optim_loop_psf_save _ _ _ _ _ _ Hloop Hn)
      as (l_prev & w_last & ev_prev & ev_last & Hprev & Hbody & _ & _).
    apply optim_body_logits in Hbody as (Hlg & _ & Hpp).
    exists l_prev, w_last, ev_prev. split; [exact Hprev|].
    rewrite Hpp in Hrun.
    destruct (psf_save l) as [[s|]|]; try discriminate.
    injection Hrun as <- <- <- _. repeat split; try reflexivity. exact Hlg.
  - apply optim_loop_last in Hloop as [(_ & -> & _)|(Hn1 & _)]; [discriminate | lia].
Qed.

(** ** The lithography model across construction and optimisation *)


(** The loop never writes to the values of the lithography model. *)
Lemma for_each_litho_model (self : MBOLens) (target : Tensor) (its : list Z) :
  forall (l l' : Locals) (w w' : World) (evs : list event),
  for_each (optim_body self target) its l w = (Ok l', w', evs) ->
  same_values (litho_model w) (litho_model w').
Proof.
  induction its as [|i its IH]; intros l l' w w' evs; cbn [for_each].
  - intros [= _ <- _]. apply same_values_refl.
  - unfold bind.
    destruct (optim_body self target i l w) as [[[l1|e] w1] ev1] eqn:Hbody; [|discriminate].
    destruct (for_each _ its l1 w1) as [[r2 w2] ev2] eqn:Hrest.
    intros [= -> <- _]. apply IH in Hrest. apply optim_body_logits in Hbody as (_ & Hlm & _).
    exact (same_values_trans _ _ _ Hlm Hrest).
Qed.



End Verification.

(** * Further properties of the code *)

Section Coverage.
Context `{Collaborators}.

(** ** The loop body in closed form *)

Lemma bookkeeping_spec (self : MBOLens) (i : Z) (l : Locals) (w : World)
    sensor_img psf psf_sum pp mask loss deconv_img ms mp :
  bookkeeping self i l (sensor_img, psf, psf_sum, pp, mask, loss, deconv_img, ms, mp) w =
  if decide (image_visualize_interval self = 0) then (Raise ZeroDivisionError, w, [])
  else (Ok (mkLocals (loss_list l ++ [loss]) (itr_list l ++ [i])
              (Some (if renders (image_visualize_interval self) i
                     then Some (snapshot psf) else None))
              (Some pp)),
        w,
        rendering (image_visualize_interval self) i mask sensor_img psf deconv_img
          (itr_list l ++ [i]) (loss_list l ++ [loss]) ms mp psf_sum loss).
Proof.
  unfold bookkeeping, bind, ret, rendering, item. rewrite visualize_spec.
  destruct (decide _); [reflexivity|].
  destruct (renders _ i); cbn [app]; rewrite ?app_nil_r; reflexivity.
Qed.

Lemma optim_body_cases (self : MBOLens) (target : Tensor) (i : Z) (l : Locals) (w : World) :
  optim_body self target i l w =
  match forward_and_loss self target (with_grad None w) with
  | (Raise e, w1, ev1) => (Raise e, w1, EvZeroGrad :: ev1)
  | (Ok (sensor_img, psf, psf_sum, pp, mask, loss, deconv_img, ms, mp), w1, ev1) =>
      let w3 := stepped self target (with_grad None w) w1 in
      match (if use_scheduler self then scheduler w3 else None), use_scheduler self with
      | None, true =>
          (Raise (AttributeError "scheduler"), w3,
           EvZeroGrad :: ev1 ++ [EvBackward; EvOptimizerStep])
      | _, _ =>
          if decide (image_visualize_interval self = 0)
          then (Raise ZeroDivisionError, scheduled self w3, training_events self ev1)
          else (Ok (mkLocals (loss_list l ++ [loss]) (itr_list l ++ [i])
                      (Some (if renders (image_visualize_interval self) i
                             then Some (snapshot psf) else None))
                      (Some pp)),
                scheduled self w3,
                training_events self ev1
                ++ rendering (image_visualize_interval self) i mask sensor_img psf deconv_img
                     (itr_list l ++ [i]) (loss_list l ++ [loss]) ms mp psf_sum loss)
      end
  end.
Proof.
  rewrite optim_body_split. unfold bind, train_iteration, scheduled, training_events.
  destruct (forward_and_loss _ _ _) as [[[x|e] w1] ev1]; [|reflexivity].
  destruct x as [[[[[[[[sensor_img psf] psf_sum] pp] mask] loss] deconv_img] ms] mp].
  cbv zeta.
  destruct (use_scheduler self); [destruct (scheduler _) as [s|]; [|reflexivity]|];
    rewrite bookkeeping_spec; (destruct (decide _); [cbn [app]; rewrite ?app_nil_r|]);
    cbn [app]; rewrite <- ?List.app_assoc; reflexivity.
Qed.

(** ** What the steps of an iteration leave alone *)

Lemma forward_and_loss_raises (self : MBOLens) (target : Tensor) (w w1 : World) (e : exn)
    (ev1 : list event) :
  forward_and_loss self target w = (Raise e, w1, ev1) ->
  e = RuntimeError_reraise \/ e = Exception_.
Proof.
  rewrite forward_and_loss_spec, forward_spec. cbv zeta.
  destruct (torch_isnan_any _); [intros [= <- _ _]; left; reflexivity|].
  unfold calculate_loss.
  destruct (decide _); [discriminate|].
  destruct (decide _); [discriminate|].
  intros [= <- _ _]. right. reflexivity.
Qed.

Lemma stepped_keeps (self : MBOLens) (target : Tensor) (w0 w1 : World) :
  same_values (litho_model w1) (litho_model (stepped self target w0 w1))
  /\ scheduler (stepped self target w0 w1) = scheduler w1
  /\ rng (stepped self target w0 w1) = rng w1.
Proof.
  split.
  - rewrite stepped_litho_model.
    destruct (use_litho_model_flag (camera self));
      [apply litho_backward_same_values | apply same_values_refl].
  - unfold stepped.
    destruct (adamw_update_fields (accumulate_grad self target w0 w1))
      as (_ & _ & _ & _ & -> & ->).
    destruct (accumulate_grad_fields self target w0 w1) as (_ & _ & _ & -> & -> & _).
    split; reflexivity.
Qed.

Lemma scheduled_keeps (self : MBOLens) (w : World) :
  litho_model (scheduled self w) = litho_model w
  /\ logits (scheduled self w) = logits w
  /\ logits_grad (scheduled self w) = logits_grad w
  /\ rng (scheduled self w) = rng w
  /\ (scheduler_ready self w -> scheduler_ready self (scheduled self w)).
Proof.
  unfold scheduled, scheduler_ready.
  destruct (use_scheduler self); [|repeat split; auto].
  destruct (scheduler w) as [s|] eqn:Hs; [|repeat split; auto; rewrite Hs; auto].
  unfold steplr_update. destruct (StepLR_step _ _). cbn. repeat split; eauto.
Qed.

Lemma training_events_count (p : event -> bool) (self : MBOLens) (ev1 : list event) :
  (forall e, is_forward_event e = true -> p e = false) ->
  Forall (fun e => is_forward_event e = true) ev1 ->
  count p (training_events self ev1)
  = (count p [EvZeroGrad; EvBackward; EvOptimizerStep]
     + (if use_scheduler self then count p [EvSchedulerStep] else 0))%nat.
Proof.
  intros Hp Hev. unfold training_events.
  change (EvZeroGrad :: ?x) with ([EvZeroGrad] ++ x).
  rewrite !count_app, (count_none p is_forward_event ev1 Hp Hev).
  destruct (use_scheduler self); cbn; lia.
Qed.

Lemma rendering_count (p : event -> bool) k i mask sensor_img psf deconv_img itr_list loss_list
    mssim mpsnr psf_sum loss :
  (forall e, is_render e = true -> p e = false) ->
  count p (rendering k i mask sensor_img psf deconv_img itr_list loss_list mssim mpsnr psf_sum loss)
  = 0%nat.
Proof.
  intros Hp. apply (count_render_other p _ Hp).
  apply (rendering_facts k i mask sensor_img psf deconv_img itr_list loss_list mssim mpsnr
           psf_sum loss).
Qed.

(** Every outcome of the loop body: which stores and traces it can end in. *)
Lemma optim_body_any (self : MBOLens) (target : Tensor) (i : Z) (l : Locals) (w w' : World)
    (r : result Locals) (evs : list event) :
  optim_body self target i l w = (r, w', evs) ->
  same_values (litho_model w) (litho_model w')
  /\ count is_imwrite evs = 0%nat
  /\ count is_zero_grad evs = 1%nat
  /\ (count is_optimizer_step evs <= 1)%nat
  /\ (scheduler_ready self w ->
      scheduler_ready self w'
      /\ count is_scheduler_step evs
         = (if use_scheduler self then count is_optimizer_step evs else 0)%nat)
  /\ match r with
     | Ok l' => count is_optimizer_step evs = 1%nat
                /\ image_visualize_interval self <> 0
                /\ is_Some (psf_save l') /\ is_Some (print_pred l')
     | Raise e =>
         ((e = RuntimeError_reraise \/ e = Exception_)
          /\ count is_optimizer_step evs = 0%nat /\ logits w' = logits w)
         \/ (e = ZeroDivisionError /\ image_visualize_interval self = 0
             /\ count is_optimizer_step evs = 1%nat
             /\ logits w' = next_logits self target w)
         \/ (e = AttributeError "scheduler" /\ ~ scheduler_ready self w)
     end.
Proof.
  rewrite optim_body_cases.
  pose proof (forward_and_loss_world self target (with_grad None w)) as Hsame.
  pose proof (forward_and_loss_events self target (with_grad None w)) as Hev.
  destruct (forward_and_loss self target (with_grad None w)) as [[[x|e] w1] ev1] eqn:Hfw;
    cbn [fst snd] in Hsame, Hev.
  - destruct x as [[[[[[[[sensor_img psf] psf_sum] pp] mask] loss] deconv_img] ms] mp].
    cbv zeta.
    destruct (stepped_keeps self target (with_grad None w) w1) as (Slm & Ssch & _).
    destruct (logits_stepped self target w w1 Hsame) as (Slg & _).
    destruct (scheduled_keeps self (stepped self target (with_grad None w) w1))
      as (Klm & Klg & _ & _ & Ksch).
    assert (Hlm : litho_model w1 = litho_model w) by (rewrite Hsame; reflexivity).
    assert (Hsc : scheduler w1 = scheduler w) by (rewrite Hsame; reflexivity).
    assert (Hready : scheduler_ready self w ->
                     scheduler_ready self (stepped self target (with_grad None w) w1)).
    { unfold scheduler_ready. rewrite Ssch, Hsc. auto. }
    rewrite Hlm in Slm.
    pose proof (training_events_count is_imwrite self ev1 ltac:(event_cases) Hev) as Ti.
    pose proof (training_events_count is_zero_grad self ev1 ltac:(event_cases) Hev) as Tz.
    pose proof (training_events_count is_optimizer_step self ev1 ltac:(event_cases) Hev) as To.
    pose proof (training_events_count is_scheduler_step self ev1 ltac:(event_cases) Hev) as Ts.
    remember (training_events self ev1) as T eqn:HT. clear HT.
    destruct (use_scheduler self) eqn:Hus.
    + destruct (scheduler (stepped self target (with_grad None w) w1)) as [s|] eqn:Hs.
      * destruct (decide _) as [Hk|Hk]; intros [= <- <- <-].
        -- rewrite Klm, Ti, Tz, To, Ts, Klg, Slg. cbn. split; [exact Slm|].
           repeat split; auto. right. left. repeat split; auto.
        -- rewrite !count_app, !rendering_count by event_cases.
           rewrite Klm, Ti, Tz, To, Ts. cbn. split; [exact Slm|]. repeat split; eauto.
      * intros [= <- <- <-].
        change (EvZeroGrad :: ev1 ++ [EvBackward; EvOptimizerStep])
          with ([EvZeroGrad] ++ ev1 ++ [EvBackward; EvOptimizerStep]).
        rewrite !count_app.
        rewrite (count_none is_imwrite is_forward_event ev1 ltac:(event_cases) Hev).
        rewrite (count_none is_zero_grad is_forward_event ev1 ltac:(event_cases) Hev).
        rewrite (count_none is_optimizer_step is_forward_event ev1 ltac:(event_cases) Hev).
        rewrite (count_none is_scheduler_step is_forward_event ev1 ltac:(event_cases) Hev).
        assert (Hnot : ~ scheduler_ready self w).
        { intros Hr. unfold scheduler_ready in Hr. rewrite Ssch, Hsc in Hs.
          destruct (Hr Hus) as [s Hs']. congruence. }
        cbn. split; [exact Slm|]. repeat split; auto; try contradiction.
    + destruct (decide _) as [Hk|Hk]; intros [= <- <- <-].
      * rewrite Klm, Ti, Tz, To, Ts, Klg, Slg. cbn. split; [exact Slm|].
        repeat split; auto. right. left. repeat split; auto.
      * rewrite !count_app, !rendering_count by event_cases.
        rewrite Klm, Ti, Tz, To, Ts. cbn. split; [exact Slm|]. repeat split; eauto.
  - intros [= <- <- <-].
    change (EvZeroGrad :: ev1) with ([EvZeroGrad] ++ ev1).
    rewrite !count_app.
    rewrite (count_none is_imwrite is_forward_event ev1 ltac:(event_cases) Hev).
    rewrite (count_none is_zero_grad is_forward_event ev1 ltac:(event_cases) Hev).
    rewrite (count_none is_optimizer_step is_forward_event ev1 ltac:(event_cases) Hev).
    rewrite (count_none is_scheduler_step is_forward_event ev1 ltac:(event_cases) Hev).
    assert (Hlm : litho_model w1 = litho_model w) by (rewrite Hsame; reflexivity).
    assert (Hlg : logits w1 = logits w) by (rewrite Hsame; reflexivity).
    assert (Hsc : scheduler w1 = scheduler w) by (rewrite Hsame; reflexivity).
    pose proof (forward_and_loss_raises _ _ _ _ _ _ Hfw) as He.
    cbn. split; [rewrite Hlm; apply same_values_refl|]. repeat split; auto.
    + unfold scheduler_ready. rewrite Hsc. auto.
    + destruct (use_scheduler self); reflexivity.
Qed.

(** Every outcome of the loop, over any list of iterations. *)
Lemma for_each_any (self : MBOLens) (target : Tensor) (its : list Z) :
  forall (l : Locals) (w w' : World) (r : result Locals) (evs : list event),
  for_each (optim_body self target) its l w = (r, w', evs) ->
  same_values (litho_model w) (litho_model w')
  /\ count is_imwrite evs = 0%nat
  /\ (count is_zero_grad evs <= length its)%nat
  /\ (scheduler_ready self w ->
      scheduler_ready self w'
      /\ count is_scheduler_step evs
         = (if use_scheduler self then count is_optimizer_step evs else 0)%nat)
  /\ match r with
     | Ok l' =>
         count is_optimizer_step evs = length its
         /\ count is_zero_grad evs = length its
         /\ (its = [] -> l' = l)
         /\ (its <> [] ->
             is_Some (psf_save l') /\ is_Some (print_pred l')
             /\ image_visualize_interval self <> 0)
     | Raise e =>
         ((e = RuntimeError_reraise \/ e = Exception_)
          /\ count is_zero_grad evs = S (count is_optimizer_step evs))
         \/ (e = ZeroDivisionError /\ image_visualize_interval self = 0
             /\ count is_optimizer_step evs = 1%nat /\ count is_zero_grad evs = 1%nat)
         \/ (e = AttributeError "scheduler" /\ ~ scheduler_ready self w)
     end.
Proof.
  induction its as [|i its IH]; intros l w w' r evs; cbn [for_each].
  - intros [= <- <- <-]. cbn.
    split; [apply same_values_refl|]. split; [reflexivity|]. split; [lia|]. split.
    + intros Hready. split; [exact Hready|]. destruct (use_scheduler self); reflexivity.
    + split; [reflexivity|]. split; [reflexivity|]. split; [reflexivity|].
      intros Hne. contradiction.
  - unfold bind.
    destruct (optim_body self target i l w) as [[[l1|e] w1] ev1] eqn:Hbody.
    + destruct (for_each _ its l1 w1) as [[r2 w2] ev2] eqn:Hrest.
      intros [= <- <- <-].
      apply optim_body_any in Hbody as (Blm & Bi & Bz & _ & Bs & Bo & Bk & Bps & Bpp).
      apply IH in Hrest as (Rlm & Ri & Rz & Rs & Rr).
      rewrite !count_app, Bi, Ri, Bz, Bo. cbn [length].
      split; [exact (same_values_trans _ _ _ Blm Rlm)|].
      split; [reflexivity|]. split; [lia|]. split.
      * intros Hready. destruct (Bs Hready) as (Hready1 & Hs1).
        destruct (Rs Hready1) as (Hready2 & Hs2).
        split; [exact Hready2|]. rewrite Hs1, Hs2, Bo.
        destruct (use_scheduler self); reflexivity.
      * destruct r2 as [l2|e2].
        -- destruct Rr as (Ro & Rz' & Rnil & Rcons).
           rewrite Ro, Rz'. repeat split; try discriminate.
           ++ destruct its as [|j its']; [rewrite (Rnil eq_refl); exact Bps|].
              apply Rcons. discriminate.
           ++ destruct its as [|j its']; [rewrite (Rnil eq_refl); exact Bpp|].
              apply Rcons. discriminate.
           ++ exact Bk.
        -- destruct Rr as [(He & Hz)|[(He & Hk & _)|(He & Hnot)]].
           ++ left. split; [exact He|]. rewrite Hz. reflexivity.
           ++ contradiction.
           ++ right. right. split; [exact He|]. intros Hready.
              apply Hnot. apply Bs. exact Hready.
    + intros [= <- <- <-].
      apply optim_body_any in Hbody as (Blm & Bi & Bz & Bo1 & Bs & Be).
      rewrite Bz. cbn [length].
      split; [exact Blm|]. split; [exact Bi|]. split; [lia|]. split; [exact Bs|].
      destruct Be as [(He & Ho & _)|[(He & Hk & Ho & _)|(He & Hnot)]].
      * left. split; [exact He|]. rewrite Ho. reflexivity.
      * right. left. repeat split; assumption.
      * right. right. split; assumption.
Qed.

(** The loop of [optim] in particular. *)
Lemma imwrite_calls_nil (evs : list event) : count is_imwrite evs = 0%nat -> imwrite_calls evs = [].
Proof. unfold count, imwrite_calls. apply nil_length_inv. Qed.

Lemma save_events_counts (self : MBOLens) (lg s : Tensor) :
  imwrite_calls (save_events self lg s) = save_events self lg s
  /\ count is_optimizer_step (save_events self lg s) = 0%nat
  /\ count is_zero_grad (save_events self lg s) = 0%nat
  /\ count is_scheduler_step (save_events self lg s) = 0%nat.
Proof. repeat split; reflexivity. Qed.

Lemma imwrite_calls_app (a b : list event) : imwrite_calls (a ++ b) = imwrite_calls a ++ imwrite_calls b.
Proof. apply List.filter_app. Qed.

(** After a loop that ran to its end, [psf_save] and [print_pred] are bound
    together: both after at least one iteration, none without. *)
Lemma optim_loop_bound (self : MBOLens) (target : Tensor) (w w1 : World) (l : Locals)
    (ev1 : list event) :
  optim_loop self target w = (Ok l, w1, ev1) ->
  (psf_save l = None /\ print_pred l = None /\ num_iters self <= 0 /\ w1 = w /\ ev1 = [])
  \/ (is_Some (psf_save l) /\ is_Some (print_pred l) /\ 1 <= num_iters self).
Proof.
  intros Hloop.
  pose proof Hloop as Hany. unfold optim_loop in Hany.
  apply for_each_any in Hany as (_ & _ & _ & _ & _ & _ & _ & Hcons).
  apply optim_loop_last in Hloop as [(Hn & -> & -> & ->)|(Hn & _)].
  - left. repeat split; assumption.
  - right. destruct (range_pos _ Hn) as [its Hits].
    destruct Hcons as (Hps & Hpp & _); [rewrite Hits; discriminate|].
    repeat split; assumption.
Qed.

Lemma files_written_calls (evs : list event) :
  files_written evs = List.filter wrote_file (imwrite_calls evs).
Proof.
  unfold files_written, imwrite_calls.
  induction evs as [|e evs IH]; [reflexivity|].
  destruct e; cbn [List.filter is_imwrite wrote_file]; try exact IH.
  destruct (cv2_imwrite path img); cbn [List.filter wrote_file]; rewrite IH;
    destruct (cv2_imwrite path img) eqn:Hw; congruence.
Qed.

(** X2: [optim] calls [cv2.imwrite] for its two files, the mask and then the
    PSF, exactly when it returns; a run that ends in an exception, whichever,
    has made no such call and written no file.  What the two calls return is
    not looked at: [optim] returns whether or not they wrote their files, and
    the files it leaves are those of the calls that returned [True], both,
    one of them or none. *)
Theorem export_calls_all_or_nothing (self : MBOLens) (target : Tensor) (w : World) :
  match optim self target w with
  | (Ok (mask_logits, _), w', evs) =>
      exists snapshot_psf,
        let mask_call :=
          EvImwrite (save_dir self +:+ "/mask" +:+ ".bmp")
            (astype_uint8 (add_scalar mask_logits 10%float)) in
        let psf_call :=
          EvImwrite (save_dir self +:+ "/psf" +:+ ".bmp")
            (astype_uint8 (mul_scalar snapshot_psf 255%float)) in
        mask_logits = fst (logits_to_doe_profile (logits w'))
        /\ imwrite_calls evs = [mask_call; psf_call]
        /\ files_written evs
           = (if wrote_file mask_call then [mask_call] else [])
             ++ (if wrote_file psf_call then [psf_call] else [])
  | (Raise _, _, evs) => imwrite_calls evs = [] /\ files_written evs = []
  end.
Proof.
  assert (Hnone : forall evs, count is_imwrite evs = 0%nat ->
            imwrite_calls evs = [] /\ files_written evs = []).
  { intros evs Hi. apply imwrite_calls_nil in Hi.
    rewrite files_written_calls, Hi. split; reflexivity. }
  destruct (optim_loop self target w) as [[[l|e] w1] ev1] eqn:Hloop.
  - rewrite (optim_after_loop _ _ _ _ _ _ Hloop).
    pose proof Hloop as Hany. unfold optim_loop in Hany.
    apply for_each_any in Hany as (_ & Hi & _).
    destruct (optim_loop_bound _ _ _ _ _ _ Hloop) as [(Hps & _)|(Hps & [pp Hpp] & _)].
    + rewrite Hps. apply Hnone. exact Hi.
    + destruct (psf_save l) as [[s|]|]; [|apply Hnone; exact Hi|apply Hnone; exact Hi].
      rewrite Hpp. exists s. cbv zeta. split; [reflexivity|].
      apply imwrite_calls_nil in Hi.
      assert (Hcalls : imwrite_calls (ev1 ++ save_events self (logits w1) s)
                       = save_events self (logits w1) s).
      { rewrite imwrite_calls_app, Hi. reflexivity. }
      split; [exact Hcalls|].
      rewrite files_written_calls, Hcalls. unfold save_events.
      cbn [List.filter]. destruct (wrote_file _), (wrote_file _); reflexivity.
  - rewrite (optim_loop_raise _ _ _ _ _ _ Hloop).
    unfold optim_loop in Hloop. apply for_each_any in Hloop as (_ & Hi & _).
    apply Hnone. exact Hi.
Qed.

(** ** The lithography model across the optimisation *)

Lemma Forall_imap_intro {A B : Type} (P : B -> Prop) (l : list A) :
  forall f : nat -> A -> B, (forall j a, P (f j a)) -> Forall P (imap f l).
Proof.
  induction l as [|a l IH]; intros f Hf; cbn [imap]; constructor; [apply Hf|].
  apply IH. intros j b. apply Hf.
Qed.

Lemma litho_backward_has_grads (graph : nat -> Tensor -> float) (lm : LithoModel) :
  has_grads (litho_backward graph lm).
Proof.
  unfold has_grads, litho_backward. cbn [parameters].
  apply Forall_imap_intro. intros j p. destruct (requires_grad p) eqn:Hr.
  - intros _. cbn. eauto.
  - intros Hr'. congruence.
Qed.

Lemma litho_backward_lookup (graph : nat -> Tensor -> float) (lm : LithoModel) (j : nat)
    (p : Param) :
  parameters lm !! j = Some p ->
  parameters (litho_backward graph lm) !! j
  = Some (if requires_grad p
          then with_p_grad (accumulate (p_grad p) (autograd (graph j) (p_data p))) p
          else p).
Proof.
  intros Hp. unfold litho_backward. cbn [parameters].
  rewrite list_lookup_imap, Hp. reflexivity.
Qed.

(** What an iteration does to the lithography model: nothing when its
    forward pass raised; otherwise what its backward pass did. *)
Lemma optim_body_litho (self : MBOLens) (target : Tensor) (i : Z) (l : Locals) (w w' : World)
    (r : result Locals) (evs : list event) :
  optim_body self target i l w = (r, w', evs) ->
  (count is_backward evs = 0%nat /\ litho_model w' = litho_model w /\ exists e, r = Raise e)
  \/ (count is_backward evs = 1%nat
      /\ litho_model w'
         = (if use_litho_model_flag (camera self)
            then litho_backward (litho_graph self target (with_grad None w)) (litho_model w)
            else litho_model w)).
Proof.
  rewrite optim_body_cases.
  pose proof (forward_and_loss_world self target (with_grad None w)) as Hsame.
  pose proof (forward_and_loss_events self target (with_grad None w)) as Hev.
  destruct (forward_and_loss self target (with_grad None w)) as [[[x|e] w1] ev1] eqn:Hfw;
    cbn [fst snd] in Hsame, Hev.
  - destruct x as [[[[[[[[sensor_img psf] psf_sum] pp] mask] loss] deconv_img] ms] mp].
    cbv zeta.
    assert (Hlm : litho_model w1 = litho_model w) by (rewrite Hsame; reflexivity).
    pose proof (stepped_litho_model self target (with_grad None w) w1) as Slm.
    rewrite Hlm in Slm.
    destruct (scheduled_keeps self (stepped self target (with_grad None w) w1)) as (Klm & _).
    pose proof (training_events_count is_backward self ev1 ltac:(event_cases) Hev) as Tb.
    assert (Tb' : count is_backward (training_events self ev1) = 1%nat).
    { rewrite Tb. destruct (use_scheduler self); reflexivity. }
    assert (Sb : count is_backward (EvZeroGrad :: ev1 ++ [EvBackward; EvOptimizerStep]) = 1%nat).
    { change (EvZeroGrad :: ev1 ++ [EvBackward; EvOptimizerStep])
        with ([EvZeroGrad] ++ ev1 ++ [EvBackward; EvOptimizerStep]).
      rewrite !count_app.
      rewrite (count_none is_backward is_forward_event ev1 ltac:(event_cases) Hev).
      reflexivity. }
    clear Tb. remember (training_events self ev1) as T eqn:HT. clear HT.
    remember (EvZeroGrad :: ev1 ++ [EvBackward; EvOptimizerStep]) as S0 eqn:HS. clear HS.
    destruct (use_scheduler self); [destruct (scheduler _) as [s|]|];
      try (destruct (decide _)); intros [= <- <- <-]; right;
      rewrite ?count_app, ?rendering_count by event_cases;
      rewrite ?Klm, ?Nat.add_0_r; split; assumption.
  - intros [= <- <- <-]. left.
    change (EvZeroGrad :: ev1) with ([EvZeroGrad] ++ ev1).
    rewrite count_app.
    rewrite (count_none is_backward is_forward_event ev1 ltac:(event_cases) Hev).
    split; [reflexivity|]. split; [rewrite Hsame; reflexivity | eauto].
Qed.

Lemma for_each_litho (self : MBOLens) (target : Tensor) (its : list Z) :
  forall (l : Locals) (w w' : World) (r : result Locals) (evs : list event),
  for_each (optim_body self target) its l w = (r, w', evs) ->
  (use_litho_model_flag (camera self) = false -> litho_model w' = litho_model w)
  /\ (count is_backward evs = 0%nat -> litho_model w' = litho_model w)
  /\ (use_litho_model_flag (camera self) = true ->
      (1 <= count is_backward evs)%nat -> has_grads (litho_model w')).
Proof.
  induction its as [|i its IH]; intros l w w' r evs; cbn [for_each].
  - intros [= <- <- <-]. cbn. repeat split; auto. lia.
  - unfold bind.
    destruct (optim_body self target i l w) as [[[l1|e] w1] ev1] eqn:Hbody.
    + destruct (for_each _ its l1 w1) as [[r2 w2] ev2] eqn:Hrest.
      intros [= <- <- <-]. apply IH in Hrest as (Roff & Rzero & Ron).
      rewrite count_app.
      apply optim_body_litho in Hbody as [(_ & _ & e & He)|(Bb & Blm)]; [discriminate|].
      rewrite Bb. split; [|split].
      * intros Hflag. rewrite (Roff Hflag), Blm, Hflag. reflexivity.
      * intros Hc. lia.
      * intros Hflag _. destruct (count is_backward ev2) as [|n] eqn:Hc.
        -- rewrite (Rzero eq_refl), Blm, Hflag. apply litho_backward_has_grads.
        -- apply Ron; [exact Hflag | lia].
    + intros [= <- <- <-].
      apply optim_body_litho in Hbody as [(Bb & Blm & _)|(Bb & Blm)]; rewrite Bb.
      * repeat split; auto. lia.
      * split; [|split].
        -- intros Hflag. rewrite Blm, Hflag. reflexivity.
        -- intros Hc. lia.
        -- intros Hflag _. rewrite Blm, Hflag. apply litho_backward_has_grads.
Qed.

(** X8: [optim] never changes the value, the [requires_grad] flag or the
    other attributes of a parameter of the lithography model, since the
    optimiser holds the logits only; but it does write their [.grad].  With
    [use_litho_model_flag] set, the backward pass of every iteration adds the
    gradient of that iteration's loss to [.grad] of each parameter that
    requires one, and [zero_grad] of the optimiser never clears it: after a
    run with at least one backward pass each such parameter carries a
    gradient.  With the flag off, or when no backward pass ran, the model of
    the final store is the one of the initial store. *)
Theorem optim_writes_litho_grad_only (self : MBOLens) (target : Tensor) (w : World) :
  let run := optim self target w in
  let lm := litho_model w in
  let lm' := litho_model (snd (fst run)) in
  same_values lm lm'
  /\ (use_litho_model_flag (camera self) = false -> lm' = lm)
  /\ (count is_backward (snd run) = 0%nat -> lm' = lm)
  /\ (use_litho_model_flag (camera self) = true ->
      (1 <= count is_backward (snd run))%nat -> has_grads lm')
  /\ (forall i l l' w0 w1 ev j p,
        optim_body self target i l w0 = (Ok l', w1, ev) ->
        use_litho_model_flag (camera self) = true ->
        parameters (litho_model w0) !! j = Some p ->
        parameters (litho_model w1) !! j
        = Some (if requires_grad p
                then with_p_grad
                       (accumulate (p_grad p)
                          (autograd (litho_graph self target (with_grad None w0) j) (p_data p)))
                       p
                else p)).
Proof.
  cbv zeta.
  assert (Hloop : forall r w1 ev1, optim_loop self target w = (r, w1, ev1) ->
            same_values (litho_model w) (litho_model w1)
            /\ (use_litho_model_flag (camera self) = false -> litho_model w1 = litho_model w)
            /\ (count is_backward ev1 = 0%nat -> litho_model w1 = litho_model w)
            /\ (use_litho_model_flag (camera self) = true ->
                (1 <= count is_backward ev1)%nat -> has_grads (litho_model w1))).
  { intros r w1 ev1 Hrun. unfold optim_loop in Hrun.
    pose proof (for_each_any _ _ _ _ _ _ _ _ Hrun) as (Hsv & _).
    split; [exact Hsv|]. exact (for_each_litho _ _ _ _ _ _ _ _ Hrun). }
  split; [|split; [|split; [|split]]].
  5: { intros i l l' w0 w1 ev j p Hbody Hflag Hp.
       apply optim_body_litho in Hbody as [(_ & _ & e & He)|(_ & ->)]; [discriminate|].
       rewrite Hflag. apply litho_backward_lookup. exact Hp. }
  all: destruct (optim_loop self target w) as [[[l|e] w1] ev1] eqn:Hrun;
    [rewrite (optim_after_loop _ _ _ _ _ _ Hrun)
    |rewrite (optim_loop_raise _ _ _ _ _ _ Hrun)];
    destruct (Hloop _ _ _ eq_refl) as (Hsv & Hoff & Hzero & Hon);
    try (destruct (psf_save l) as [[s|]|]; [destruct (print_pred l)|..]);
    cbn [fst snd]; rewrite ?count_app; cbn [count save_events List.filter is_backward length];
    rewrite ?Nat.add_0_r; assumption.
Qed.

Lemma MBOLens_init_ready (model_choice : string) (flag : bool) (num_iters : Z) (lr : float)
    (use_sched : bool) (interval : Z) (a b : float) (save_dir : string)
    (loss_type : option string) (r : Rng) (self : MBOLens) (w : World) (ev0 : list event) :
  MBOLens_init model_choice flag num_iters lr use_sched interval a b save_dir loss_type r
    = (Ok (self, w), ev0) ->
  scheduler_ready self w /\ use_scheduler self = use_sched
  /\ (use_sched = false -> scheduler w = None).
Proof.
  unfold MBOLens_init, initialize_optimization.
  destruct (load_pretrained_litho_model _ _ _) as [[lm'|e] evs]; [|discriminate].
  destruct (DOE_init r) as [lg r'].
  destruct (PrimFloat.leb 0%float lr); [|discriminate].
  intros [= <- <- _]. unfold scheduler_ready. cbn.
  destruct use_sched; repeat split; eauto; discriminate.
Qed.

(** X4: the scheduler exists whenever the object was constructed with
    [use_scheduler]; so in a run of [optim] on a constructed object the
    scheduler is stepped once after every optimiser step when
    [use_scheduler] is set, never otherwise, and [self.scheduler] is never
    found missing. *)
Theorem scheduler_steps (model_choice : string) (flag : bool) (num_iters : Z) (lr : float)
    (use_sched : bool) (interval : Z) (a b : float) (save_dir : string)
    (loss_type : option string) (r : Rng) (target : Tensor)
    (self : MBOLens) (w : World) (ev0 : list event) :
  MBOLens_init model_choice flag num_iters lr use_sched interval a b save_dir loss_type r
    = (Ok (self, w), ev0) ->
  count is_scheduler_step (snd (optim self target w))
  = (if use_sched then count is_optimizer_step (snd (optim self target w)) else 0%nat)
  /\ fst (fst (optim self target w)) <> Raise (AttributeError "scheduler").
Proof.
  intros Hinit. apply MBOLens_init_ready in Hinit as (Hready & Hus & _).
  destruct (optim_loop self target w) as [[[l|e] w1] ev1] eqn:Hloop.
  - rewrite (optim_after_loop _ _ _ _ _ _ Hloop).
    unfold optim_loop in Hloop. apply for_each_any in Hloop as (_ & _ & _ & Hs & _).
    destruct (Hs Hready) as (_ & Hcount). rewrite Hus in Hcount.
    destruct (psf_save l) as [[s|]|]; [destruct (print_pred l)|..]; cbn [fst snd];
      rewrite ?count_app, ?Hcount; (split; [|discriminate]);
      cbn; destruct use_sched; lia.
  - rewrite (optim_loop_raise _ _ _ _ _ _ Hloop). cbn [fst snd].
    unfold optim_loop in Hloop. apply for_each_any in Hloop as (_ & _ & _ & Hs & Hr).
    destruct (Hs Hready) as (_ & Hcount). rewrite Hus in Hcount.
    split; [exact Hcount|].
    destruct Hr as [([-> | ->] & _)|[(-> & _)|(_ & Hnot)]]; try discriminate.
    contradiction.
Qed.

(** X5: the ways a run of [optim] can fail, on an object whose scheduler
    exists when it is configured.  [UnboundLocalError] on [psf_save]: no
    iteration was asked for, and nothing has happened.  [AttributeError] on
    [None.numpy()]: all iterations ran and [num_iters] is not a multiple of
    the interval.  [ZeroDivisionError]: the interval is zero, and one
    optimiser step was applied.  The exception of the NaN check or of the
    evaluator: raised in a forward pass, in an iteration whose optimiser step
    did not take place.  There is no other. *)
Theorem optim_failure_modes (self : MBOLens) (target : Tensor) (w w' : World) (e : exn)
    (evs : list event) :
  scheduler_ready self w ->
  optim self target w = (Raise e, w', evs) ->
  (e = UnboundLocalError "psf_save" /\ num_iters self <= 0 /\ w' = w /\ evs = [])
  \/ (e = AttributeError "numpy" /\ 1 <= num_iters self
      /\ (num_iters self) mod (image_visualize_interval self) <> 0
      /\ count is_optimizer_step evs = Z.to_nat (num_iters self))
  \/ (e = ZeroDivisionError /\ image_visualize_interval self = 0 /\ 1 <= num_iters self
      /\ count is_optimizer_step evs = 1%nat)
  \/ ((e = RuntimeError_reraise \/ e = Exception_) /\ 1 <= num_iters self
      /\ count is_zero_grad evs = S (count is_optimizer_step evs)
      /\ (count is_optimizer_step evs < Z.to_nat (num_iters self))%nat).
Proof.
  intros Hready.
  destruct (optim_loop self target w) as [[[l|e1] w1] ev1] eqn:Hloop.
  - rewrite (optim_after_loop _ _ _ _ _ _ Hloop).
    pose proof Hloop as Hany. unfold optim_loop in Hany.
    apply for_each_any in Hany as (_ & _ & _ & _ & Ho & _).
    rewrite range_length in Ho.
    destruct (optim_loop_bound _ _ _ _ _ _ Hloop)
      as [(Hps & _ & Hn & -> & ->)|(_ & [pp Hpp] & Hn)].
    + rewrite Hps. intros [= <- <- <-]. left. repeat split; assumption.
    + destruct (optim_loop_psf_save _ _ _ _ _ _ Hloop Hn) as (? & ? & ? & ? & _ & _ & Hps & _).
      rewrite Hps, Hpp.
      destruct (Z.eqb_spec ((num_iters self) mod (image_visualize_interval self)) 0)
        as [Hmod|Hmod]; [discriminate|].
      intros [= <- <- <-]. right. left. repeat split; assumption.
  - rewrite (optim_loop_raise _ _ _ _ _ _ Hloop). intros [= <- <- <-].
    unfold optim_loop in Hloop. apply for_each_any in Hloop as (_ & _ & Hlen & _ & Hr).
    rewrite range_length in Hlen.
    destruct Hr as [(He & Hz)|[(He & Hk & Ho & Hz)|(_ & Hnot)]]; [| |contradiction].
    + right. right. right. repeat split; try assumption; lia.
    + right. right. left. repeat split; try assumption. lia.
Qed.

(** ** The first and the last iteration *)

Lemma forward_and_loss_returns (self : MBOLens) (target : Tensor) (w : World) :
  torch_isnan_any (psf_of (camera self) (litho_model w) w) = false ->
  loss_type self = Some "cbr" \/ loss_type self = Some "deconv_loss" ->
  exists x w1 ev1, forward_and_loss self target w = (Ok x, w1, ev1).
Proof.
  intros Hnan Hlt. rewrite forward_and_loss_spec, forward_spec. cbv zeta. rewrite Hnan.
  destruct Hlt as [Hlt|Hlt].
  - rewrite calculate_loss_cbr by assumption. eauto.
  - rewrite calculate_loss_deconv by assumption. cbv zeta. eauto.
Qed.

Lemma optim_first_raise (self : MBOLens) (target : Tensor) (w w1 : World) (e : exn)
    (ev1 : list event) :
  1 <= num_iters self ->
  optim_body self target 0 (mkLocals [] [] None None) w = (Raise e, w1, ev1) ->
  optim self target w = (Raise e, w1, ev1).
Proof.
  intros Hn Hbody. apply optim_loop_raise. unfold optim_loop.
  destruct (range_pos _ Hn) as [its ->]. cbn [for_each]. unfold bind.
  rewrite Hbody. reflexivity.
Qed.

Lemma logits_grad_stepped (self : MBOLens) (target : Tensor) (w w1 : World) :
  same_but_rng (with_grad None w) w1 ->
  logits_grad (stepped self target (with_grad None w) w1)
  = Some (autograd (loss_graph self target (with_grad None w)) (logits w)).
Proof.
  unfold same_but_rng. intros Hw1. unfold stepped.
  destruct (adamw_update_fields (accumulate_grad self target (with_grad None w) w1))
    as (_ & _ & -> & _).
  destruct (accumulate_grad_fields self target (with_grad None w) w1) as (_ & -> & _).
  rewrite Hw1. reflexivity.
Qed.

(** X3: when [optim] returns, the two files it has asked [cv2.imwrite] to
    write come from two different states of the logits.  [psf.bmp] holds the
    snapshot of the PSF computed in the last iteration, from the logits
    before that iteration's optimiser step; [mask.bmp] holds the profile
    rendered from the logits after it. *)
Theorem saved_files_logits_states (self : MBOLens) (target : Tensor) (w w' : World)
    (r : Tensor * Tensor) (evs : list event) :
  optim self target w = (Ok r, w', evs) ->
  exists l_prev w_last ev_prev,
    for_each (optim_body self target) (range (num_iters self - 1))
      (mkLocals [] [] None None) w = (Ok l_prev, w_last, ev_prev)
    /\ logits w' = next_logits self target w_last
    /\ imwrite_calls evs =
        [EvImwrite (save_dir self +:+ "/mask" +:+ ".bmp")
           (astype_uint8
              (add_scalar (fst (logits_to_doe_profile (next_logits self target w_last)))
                 10%float));
         EvImwrite (save_dir self +:+ "/psf" +:+ ".bmp")
           (astype_uint8
              (mul_scalar (snapshot (psf_of (camera self) (litho_model w_last) w_last))
                 255%float))].
Proof.
  intros Hrun.
  destruct (optim_loop self target w) as [[[l|e] w1] ev1] eqn:Hloop;
    [|rewrite (optim_loop_raise _ _ _ _ _ _ Hloop) in Hrun; discriminate].
  rewrite (optim_after_loop _ _ _ _ _ _ Hloop) in Hrun.
  pose proof Hloop as Hany. unfold optim_loop in Hany.
  apply for_each_any in Hany as (_ & Hi & _). apply imwrite_calls_nil in Hi.
  destruct (optim_loop_bound _ _ _ _ _ _ Hloop) as [(Hps & _)|(_ & _ & Hn)];
    [rewrite Hps in Hrun; discriminate|].
  destruct (optim_loop_psf_save _ _ _ _ _ _ Hloop Hn)
    as (l_prev & w_last & ev_prev & ev_last & Hprev & Hbody & Hps & [pp Hpp]).
  apply optim_body_logits in Hbody as (Hlg & _).
  exists l_prev, w_last, ev_prev. split; [exact Hprev|].
  rewrite Hps, Hpp in Hrun.
  destruct (Z.eqb _ 0); [|discriminate].
  injection Hrun as _ <- <-. split; [exact Hlg|].
  rewrite imwrite_calls_app, Hi, <- Hlg. reflexivity.
Qed.

(** X6: an interval of zero is not refused when the object is built.  With
    at least one iteration to run, a valid loss type and a first PSF without
    NaN, [optim] raises [ZeroDivisionError] in [visualize] of the first
    iteration, after that iteration's optimiser step: the logits have moved
    once, and nothing is saved, no call of [cv2.imwrite] being made. *)
Theorem zero_interval_fails_after_first_step (self : MBOLens) (target : Tensor) (w : World) :
  image_visualize_interval self = 0 ->
  1 <= num_iters self ->
  scheduler_ready self w ->
  torch_isnan_any (psf_of (camera self) (litho_model w) w) = false ->
  loss_type self = Some "cbr" \/ loss_type self = Some "deconv_loss" ->
  exists w' evs,
    optim self target w = (Raise ZeroDivisionError, w', evs)
    /\ count is_optimizer_step evs = 1%nat
    /\ logits w' = next_logits self target w
    /\ imwrite_calls evs = [].
Proof.
  intros Hk Hn Hready Hnan Hlt.
  destruct (forward_and_loss_returns self target (with_grad None w) Hnan Hlt)
    as (x & w1 & ev1 & Hfw).
  destruct (optim_body self target 0 (mkLocals [] [] None None) w) as [[r w'] evs] eqn:Hbody.
  pose proof (optim_body_any _ _ _ _ _ _ _ _ Hbody) as (_ & Hi & _ & _ & _ & Hr).
  assert (He : r = Raise ZeroDivisionError).
  { revert Hbody. rewrite optim_body_cases, Hfw.
    destruct x as [[[[[[[[sensor_img psf] psf_sum] pp] mask] loss] deconv_img] ms] mp].
    cbv zeta.
    pose proof (forward_and_loss_world self target (with_grad None w)) as Hsame.
    rewrite Hfw in Hsame; cbn [fst snd] in Hsame.
    destruct (stepped_keeps self target (with_grad None w) w1) as (_ & Ssch & _).
    assert (Hsc : scheduler w1 = scheduler w) by (rewrite Hsame; reflexivity).
    destruct (use_scheduler self) eqn:Hus.
    - destruct (Hready Hus) as [s Hs]. rewrite Ssch, Hsc, Hs.
      destruct (decide _) as [_|Hne]; [|contradiction]. intros [= <- _ _]. reflexivity.
    - destruct (decide _) as [_|Hne]; [|contradiction]. intros [= <- _ _]. reflexivity. }
  subst r. exists w', evs. split; [exact (optim_first_raise _ _ _ _ _ _ Hn Hbody)|].
  destruct Hr as [([Hx|Hx] & _)|[(_ & _ & Ho & Hlg)|(Hx & _)]]; try discriminate.
  split; [exact Ho|]. split; [exact Hlg|]. apply imwrite_calls_nil. exact Hi.
Qed.

(** X9: the gradient of the logits does not accumulate across iterations.
    An iteration gives the same outcome whatever gradient the logits carried
    when it started, and after an iteration that returns [logits.grad] is the
    gradient of that iteration's loss at the logits the iteration started
    from. *)
Theorem gradient_not_accumulated (self : MBOLens) (target : Tensor) (i : Z) (l : Locals)
    (w : World) (g : option Tensor) :
  optim_body self target i l (with_grad g w) = optim_body self target i l w
  /\ (forall l' w' evs,
        optim_body self target i l w = (Ok l', w', evs) ->
        logits_grad w'
        = Some (autograd (loss_graph self target (with_grad None w)) (logits w))).
Proof.
  split; [reflexivity|].
  intros l' w' evs Hbody.
  apply optim_body_ok in Hbody
    as (sensor_img & psf & psf_sum & pp & mask & loss & deconv_img & ms & mp & w1 & ev1
        & Hfw & _ & _ & -> & _).
  pose proof (forward_and_loss_world self target (with_grad None w)) as Hsame.
  rewrite Hfw in Hsame; cbn [fst snd] in Hsame.
  destruct (scheduled_keeps self (stepped self target (with_grad None w) w1))
    as (_ & _ & Hg & _).
  rewrite Hg. apply logits_grad_stepped. exact Hsame.
Qed.

(** ** The sign of an intensity *)

Lemma binary_round_aux_sign (prec emax : Z) (sx : bool) (mx ex : Z) (lx : SpecFloat.location) :
  match SpecFloat.binary_round_aux prec emax sx mx ex lx with
  | SpecFloat.S754_zero s | SpecFloat.S754_infinity s | SpecFloat.S754_finite s _ _ => s = sx
  | SpecFloat.S754_nan => True
  end.
Proof.
  unfold SpecFloat.binary_round_aux.
  destruct (SpecFloat.shr_fexp _ _ _ _ _) as [mrs' e'].
  destruct (SpecFloat.shr_fexp _ _ _ _ _) as [mrs'' e''].
  destruct (SpecFloat.shr_m mrs''); [reflexivity| |exact I].
  destruct (Z.leb _ _); reflexivity.
Qed.

Lemma SFmul_square_sign (prec emax : Z) (x : SpecFloat.spec_float) :
  match SpecFloat.SFmul prec emax x x with
  | SpecFloat.S754_zero s | SpecFloat.S754_infinity s | SpecFloat.S754_finite s _ _ => s = false
  | SpecFloat.S754_nan => True
  end.
Proof.
  destruct x as [s|s| |s m e]; cbn [SpecFloat.SFmul]; rewrite ?xorb_nilpotent;
    try reflexivity; try exact I.
  pose proof (binary_round_aux_sign prec emax (xorb s s) (Zpos (Pos.mul m m)) (Z.add e e)
                SpecFloat.loc_Exact) as Hs.
  rewrite xorb_nilpotent in *. exact Hs.
Qed.

Lemma square_not_negative (x : float) : PrimFloat.ltb (x * x)%float 0%float = false.
Proof.
  rewrite FloatAxioms.ltb_spec, FloatAxioms.mul_spec. unfold FloatAxioms.SF64mul.
  pose proof (SFmul_square_sign FloatOps.prec FloatOps.emax (FloatOps.Prim2SF x)) as Hs.
  change (FloatOps.Prim2SF 0%float) with (SpecFloat.S754_zero false).
  destruct (SpecFloat.SFmul _ _ _ _) as [s|s| |s m e]; try subst s; reflexivity.
Qed.

Lemma square_nonnegative (x : float) :
  PrimFloat.is_nan (x * x)%float = false -> PrimFloat.leb 0%float (x * x)%float = true.
Proof.
  unfold PrimFloat.is_nan.
  rewrite FloatAxioms.leb_spec, FloatAxioms.eqb_spec, FloatAxioms.mul_spec.
  unfold FloatAxioms.SF64mul.
  pose proof (SFmul_square_sign FloatOps.prec FloatOps.emax (FloatOps.Prim2SF x)) as Hs.
  change (FloatOps.Prim2SF 0%float) with (SpecFloat.S754_zero false).
  destruct (SpecFloat.SFmul _ _ _ _) as [s|s| |s m e]; try subst s; cbn;
    try reflexivity. discriminate.
Qed.

(** X1: the intensity [|field|^2] has no negative element, whatever the
    lens model and the complex modulus return; and every element of the PSF
    a forward pass returns compares as at least zero (the NaN check has
    excluded the elements that compare with nothing). *)
Theorem psf_nonnegative (self : CameraPipeline) (target : Tensor) (lm : LithoModel)
    (w : World) :
  (forall field : CTensor,
     Forall (fun v => PrimFloat.ltb v 0%float = false) (torch_pow2 (torch_abs field)))
  /\ (forall sensor_img psf psf_sum pp mask w' evs,
        forward self target lm w = (Ok (sensor_img, psf, psf_sum, pp, mask), w', evs) ->
        Forall (fun v => PrimFloat.leb 0%float v = true) psf).
Proof.
  split.
  - intros field. unfold torch_pow2. apply Forall_map, Forall_forall.
    intros x _. apply square_not_negative.
  - intros sensor_img psf psf_sum pp mask w' evs. rewrite forward_spec. cbv zeta.
    destruct (torch_isnan_any (psf_of self lm w)) eqn:Hnan; [discriminate|].
    intros [= _ <- _ _ _ _ _].
    apply isnan_any_false in Hnan. unfold psf_of, torch_pow2 in *.
    rewrite Forall_map in Hnan. apply Forall_map.
    eapply Forall_impl; [exact Hnan|]. intros x Hx. apply square_nonnegative. exact Hx.
Qed.

(** ** The interval of the diagnostics *)

Lemma for_each_ext {L : Type} (f g : Z -> L -> M L) (its : list Z) :
  (forall i l w, f i l w = g i l w) ->
  forall l w, for_each f its l w = for_each g its l w.
Proof.
  intros Hfg. induction its as [|i its IH]; intros l w; cbn [for_each]; [reflexivity|].
  unfold bind. rewrite Hfg.
  destruct (g i l w) as [[[l1|e] w1] ev1]; [|reflexivity].
  rewrite IH. reflexivity.
Qed.

(** Two intervals that render at the same iterations, and are zero together,
    give the same run. *)
Lemma optim_interval_ext (self : MBOLens) (k1 k2 : Z) (target : Tensor) (w : World) :
  (k1 = 0 <-> k2 = 0) ->
  (forall i, renders k1 i = renders k2 i) ->
  optim (with_interval k1 self) target w = optim (with_interval k2 self) target w.
Proof.
  intros Hzero Hren.
  assert (Hbody : forall i l w0,
            optim_body (with_interval k1 self) target i l w0
            = optim_body (with_interval k2 self) target i l w0).
  { intros i l w0. rewrite !optim_body_split. unfold bind.
    rewrite !train_iteration_interval.
    destruct (train_iteration self target w0) as [[[x|e] w1] ev1]; [|reflexivity].
    destruct x as [[[[[[[[sensor_img psf] psf_sum] pp] mask] loss] deconv_img] ms] mp].
    rewrite !bookkeeping_spec. cbn [image_visualize_interval with_interval].
    unfold rendering. rewrite !Hren.
    destruct (decide (k1 = 0)) as [H1|H1], (decide (k2 = 0)) as [H2|H2];
      try reflexivity; exfalso; tauto. }
  unfold optim, optim_loop, bind. cbn [num_iters with_interval].
  rewrite (for_each_ext _ _ _ Hbody).
  destruct (for_each _ _ _ _) as [[[l|e] w1] ev1]; reflexivity.
Qed.

Lemma renders_opp (k i : Z) : renders (- k) i = renders k i.
Proof.
  unfold renders.
  destruct (Z.eq_dec k 0) as [->|Hk]; [reflexivity|].
  assert (Hiff : (i + 1) mod (- k) = 0 <-> (i + 1) mod k = 0).
  { rewrite !Z.mod_divide by lia. apply Z.divide_opp_l. }
  destruct (Z.eqb_spec ((i + 1) mod (- k)) 0) as [Hm|Hm],
           (Z.eqb_spec ((i + 1) mod k) 0) as [Hm'|Hm']; try reflexivity; tauto.
Qed.

(** X7: a negative interval is accepted and acts as its absolute value:
    [(i + 1) % (-k) == 0] holds at the same iterations as [(i + 1) % k == 0],
    so the whole run of [optim], its result, its store and its events, is
    the same for [-k] as for [k]. *)
Theorem negative_interval (self : MBOLens) (k : Z) (target : Tensor) (w : World) :
  (forall i, Z.eqb ((i + 1) mod (- k)) 0 = Z.eqb ((i + 1) mod k) 0)
  /\ optim (with_interval (- k) self) target w = optim (with_interval k self) target w.
Proof.
  split; [intros i; apply renders_opp|].
  apply optim_interval_ext; [lia | intros i; apply renders_opp].
Qed.

(** ** What a rendering shows *)

Lemma omap_nil {A : Type} (f : event -> option A) (P : event -> Prop) (evs : list event) :
  (forall e, P e -> f e = None) -> Forall P evs -> omap f evs = [].
Proof.
  intros Hf Hall. induction Hall as [|e evs He _ IH]; [reflexivity|].
  cbn [omap list_omap]. rewrite (Hf e He). exact IH.
Qed.

Lemma count_nil (p : event -> bool) (P : event -> Prop) (evs : list event) :
  (forall e, P e -> p e = false) -> Forall P evs -> count p evs = 0%nat.
Proof.
  intros Hp Hall. unfold count. induction Hall as [|e evs He _ IH]; [reflexivity|].
  cbn [List.filter]. rewrite (Hp e He). exact IH.
Qed.

Lemma train_iteration_forwarded (self : MBOLens) (target : Tensor) (w w1 : World)
    (x : Forwarded) (ev1 : list event) :
  train_iteration self target w = (Ok x, w1, ev1) ->
  exists w0 ev0, forward_and_loss self target (with_grad None w) = (Ok x, w0, ev0).
Proof.
  unfold train_iteration.
  destruct (forward_and_loss _ _ _) as [[[y|e] w0] ev0]; [|discriminate].
  destruct (use_scheduler self); [destruct (scheduler _); [|discriminate]|];
    intros [= <- _ _]; eauto.
Qed.

(** The trace of an iteration: events that are not of [visualize], followed,
    when the iteration returns and renders, by those [visualize] emits. *)
Lemma optim_body_trace (self : MBOLens) (target : Tensor) (i : Z) (l : Locals) (w w' : World)
    (r : result Locals) (evs : list event) :
  optim_body self target i l w = (r, w', evs) ->
  exists T R,
    evs = T ++ R
    /\ Forall (fun e => is_render e = false) T
    /\ (R = []
        \/ exists sensor_img psf psf_sum pp mask loss deconv_img ms mp w0 ev0,
            forward_and_loss self target (with_grad None w)
              = (Ok (sensor_img, psf, psf_sum, pp, mask, loss, deconv_img, ms, mp), w0, ev0)
            /\ renders (image_visualize_interval self) i = true
            /\ R = render_events i mask sensor_img psf deconv_img
                     (itr_list l ++ [i]) (loss_list l ++ [loss]) ms mp psf_sum loss).
Proof.
  rewrite optim_body_split. unfold bind.
  pose proof (train_iteration_no_render self target w) as Hnr.
  destruct (train_iteration self target w) as [[[x|e] w1] ev1] eqn:Htrain; cbn [snd] in Hnr.
  - destruct (train_iteration_forwarded _ _ _ _ _ _ Htrain) as (w0 & ev0 & Hfw).
    destruct x as [[[[[[[[sensor_img psf] psf_sum] pp] mask] loss] deconv_img] ms] mp].
    rewrite bookkeeping_spec.
    destruct (decide _) as [Hk|Hk]; intros [= _ _ <-]; exists ev1.
    + exists []. repeat split; auto.
    + unfold rendering. destruct (renders _ i) eqn:Hren.
      * eexists. split; [reflexivity|]. split; [exact Hnr|]. right.
        do 11 eexists. split; [exact Hfw|]. split; reflexivity.
      * exists []. repeat split; auto.
  - intros [= _ _ <-]. exists ev1, []. rewrite app_nil_r. repeat split; auto.
Qed.

Lemma forward_and_loss_deconv_img (self : MBOLens) (target : Tensor) (w w1 : World)
    sensor_img psf psf_sum pp mask loss deconv_img ms mp (ev1 : list event) :
  forward_and_loss self target w
    = (Ok (sensor_img, psf, psf_sum, pp, mask, loss, deconv_img, ms, mp), w1, ev1) ->
  (loss_type self = Some "cbr" /\ deconv_img = None)
  \/ (loss_type self = Some "deconv_loss"
      /\ deconv_img = Some (torch_richardson_lucy_fft sensor_img psf)).
Proof.
  intros Hrun. pose proof (forward_and_loss_ok_cases _ _ _ _ _ _ Hrun) as Hlt.
  revert Hrun. rewrite forward_and_loss_spec.
  destruct (forward _ _ _ _) as [[[y|e] w2] ev2]; [|discriminate].
  destruct y as [[[[s0 p0] ps0] pp0] m0].
  destruct Hlt as [Hlt|Hlt].
  - rewrite calculate_loss_cbr by assumption. intros [= _ _ _ _ _ _ <- _ _ _ _].
    left. split; [assumption | reflexivity].
  - rewrite calculate_loss_deconv by assumption. cbv zeta.
    intros [= <- <- _ _ _ _ <- _ _ _ _]. right. split; [assumption | reflexivity].
Qed.

(** What an iteration renders: nothing, or one rendering, of the history up
    to and with the current iteration. *)
Lemma optim_body_rendering (self : MBOLens) (target : Tensor) (i : Z) (l : Locals)
    (w w' : World) (r : result Locals) (evs : list event) :
  optim_body self target i l w = (r, w', evs) ->
  (rendered evs = [] /\ plotted evs = [] /\ count is_show evs = 0%nat)
  \/ (exists loss,
        renders (image_visualize_interval self) i = true
        /\ rendered evs = [i]
        /\ plotted evs = [(itr_list l ++ [i], loss_list l ++ [loss])]
        /\ count is_show evs = (3 + deconv_calls self)%nat).
Proof.
  intros Hbody. apply optim_body_trace in Hbody as (T & R & -> & HT & HR).
  assert (Tr : rendered T = []).
  { apply (omap_nil rendered_at (fun e => is_render e = false)); [|exact HT].
    intros []; (reflexivity || discriminate). }
  assert (Tp : plotted T = []).
  { apply (omap_nil plot_args (fun e => is_render e = false)); [|exact HT].
    intros []; (reflexivity || discriminate). }
  assert (Ts : count is_show T = 0%nat).
  { apply (count_nil is_show (fun e => is_render e = false)); [|exact HT].
    intros []; (reflexivity || discriminate). }
  destruct HR as [->|(sensor_img & psf & psf_sum & pp & mask & loss & deconv_img & ms & mp
                      & w0 & ev0 & Hfw & Hren & ->)].
  - left. rewrite app_nil_r. repeat split; assumption.
  - right. exists loss. split; [exact Hren|].
    unfold rendered, plotted in *. rewrite !omap_app, count_app, Tr, Tp, Ts.
    unfold deconv_calls.
    destruct (forward_and_loss_deconv_img _ _ _ _ _ _ _ _ _ _ _ _ _ _ Hfw)
      as [(Hlt & ->)|(Hlt & ->)]; rewrite Hlt; repeat split; reflexivity.
Qed.



Lemma for_each_plotted (self : MBOLens) (target : Tensor) (m : nat) :
  forall (j : nat) (l : Locals) (w w' : World) (r : result Locals) (evs : list event),
  itr_list l = range (Z.of_nat j) ->
  length (loss_list l) = j ->
  for_each (optim_body self target) (map Z.of_nat (seq j m)) l w = (r, w', evs) ->
  Forall (fun p => exists i,
            Z.of_nat j <= i < Z.of_nat (j + m)
            /\ renders (image_visualize_interval self) i = true
            /\ fst p = range (i + 1)
            /\ length (snd p) = length (fst p))
         (plotted evs).
Proof.
  induction m as [|m IH]; intros j l w w' r evs Hitr Hlen; cbn [seq map for_each].
  - intros [= _ _ <-]. constructor.
  - unfold bind.
    destruct (optim_body self target (Z.of_nat j) l w) as [[r1 w1] ev1] eqn:Hbody.
    assert (Hfirst : Forall (fun p => exists i,
                        Z.of_nat j <= i < Z.of_nat (j + S m)
                        /\ renders (image_visualize_interval self) i = true
                        /\ fst p = range (i + 1)
                        /\ length (snd p) = length (fst p))
                       (plotted ev1)).
    { destruct (optim_body_rendering _ _ _ _ _ _ _ _ Hbody)
        as [(_ & -> & _)|(loss & Hren & _ & -> & _)]; [constructor|].
      constructor; [|constructor]. exists (Z.of_nat j). cbn [fst snd].
      split; [lia|]. split; [exact Hren|].
      replace (Z.of_nat j + 1) with (Z.of_nat (S j)) by lia.
      rewrite range_succ, Hitr. split; [reflexivity|].
      rewrite !length_app, Hlen, range_length, Nat2Z.id. reflexivity. }
    destruct r1 as [l1|e]; [|intros [= _ _ <-]; exact Hfirst].
    destruct (for_each _ _ l1 w1) as [[r2 w2] ev2] eqn:Hrest.
    intros [= _ _ <-]. unfold plotted. rewrite omap_app. apply Forall_app. split; [exact Hfirst|].
    apply optim_body_ok in Hbody
      as (sensor_img & psf & psf_sum & pp & mask & loss & deconv_img & ms & mp & w0 & ev0
          & _ & _ & -> & _).
    apply IH in Hrest.
    + eapply Forall_impl; [exact Hrest|]. intros p (i & Hi & Hp). exists i.
      split; [lia | exact Hp].
    + cbn [itr_list]. rewrite range_succ, Hitr. reflexivity.
    + cbn [loss_list]. rewrite length_app, Hlen. cbn. lia.
Qed.

(** X10: the loss and the index of an iteration are appended before
    [visualize] is called, so every call of [plot_loss], in a run of [optim]
    of whatever outcome, is made at an iteration [i] that renders, with the
    indices [0 .. i] and as many losses. *)
Theorem plot_loss_history (self : MBOLens) (target : Tensor) (w : World) :
  Forall (fun p => exists i,
            0 <= i < num_iters self
            /\ renders (image_visualize_interval self) i = true
            /\ fst p = range (i + 1)
            /\ length (snd p) = length (fst p))
         (plotted (snd (optim self target w))).
Proof.
  assert (Hloop : forall r w1 ev1, optim_loop self target w = (r, w1, ev1) ->
            Forall (fun p => exists i,
                      0 <= i < num_iters self
                      /\ renders (image_visualize_interval self) i = true
                      /\ fst p = range (i + 1)
                      /\ length (snd p) = length (fst p))
                   (plotted ev1)).
  { intros r w1 ev1 Hrun. unfold optim_loop, range in Hrun.
    apply (for_each_plotted self target _ 0%nat) in Hrun; [|reflexivity..].
    eapply Forall_impl; [exact Hrun|]. intros p (i & Hi & Hp). exists i.
    split; [lia | exact Hp]. }
  destruct (optim_loop self target w) as [[[l|e] w1] ev1] eqn:Hrun.
  - rewrite (optim_after_loop _ _ _ _ _ _ Hrun). specialize (Hloop _ _ _ eq_refl).
    destruct (psf_save l) as [[s|]|]; [destruct (print_pred l)|..]; cbn [snd];
      unfold plotted in *; rewrite ?omap_app; cbn; rewrite ?app_nil_r; exact Hloop.
  - rewrite (optim_loop_raise _ _ _ _ _ _ Hrun). cbn [snd]. exact (Hloop _ _ _ eq_refl).
Qed.

(** ** Construction *)


(** ** The order of the steps *)

Lemma training_steps_app (a b : list event) :
  training_steps (a ++ b) = training_steps a ++ training_steps b.
Proof. apply List.filter_app. Qed.

Lemma training_steps_nil (P : event -> Prop) (evs : list event) :
  (forall e, P e -> is_zero_grad e || is_backward e || is_optimizer_step e = false) ->
  Forall P evs -> training_steps evs = [].
Proof.
  intros Hp Hall. apply nil_length_inv.
  exact (count_nil _ P evs Hp Hall).
Qed.

Lemma optim_body_steps (self : MBOLens) (target : Tensor) (i : Z) (l : Locals) (w w' : World)
    (r : result Locals) (evs : list event) :
  optim_body self target i l w = (r, w', evs) ->
  (training_steps evs = full_iterations 1
   /\ count is_optimizer_step evs = 1%nat /\ unfinished r = [])
  \/ (training_steps evs = [EvZeroGrad]
      /\ count is_optimizer_step evs = 0%nat /\ unfinished r = [EvZeroGrad]
      /\ exists e, r = Raise e).
Proof.
  rewrite optim_body_cases.
  pose proof (forward_and_loss_events self target (with_grad None w)) as Hev.
  destruct (forward_and_loss self target (with_grad None w)) as [[[x|e] w1] ev1] eqn:Hfw;
    cbn [snd] in Hev.
  - destruct x as [[[[[[[[sensor_img psf] psf_sum] pp] mask] loss] deconv_img] ms] mp].
    cbv zeta.
    assert (Hf : training_steps ev1 = []).
    { apply (training_steps_nil (fun e => is_forward_event e = true)); [|exact Hev].
      intros []; (reflexivity || discriminate). }
    assert (Ho : count is_optimizer_step ev1 = 0%nat).
    { apply (count_none is_optimizer_step is_forward_event); [event_cases | exact Hev]. }
    assert (Hr : forall a b c d e0 f g h j k0 m n,
               training_steps (rendering a b c d e0 f g h j k0 m n) = []
               /\ count is_optimizer_step (rendering a b c d e0 f g h j k0 m n) = 0%nat).
    { intros. split.
      - apply (training_steps_nil (fun e => is_render e = true));
          [intros []; (reflexivity || discriminate)|]. apply rendering_facts.
      - apply rendering_count. event_cases. }
    assert (HT : training_steps (training_events self ev1) = full_iterations 1
                 /\ count is_optimizer_step (training_events self ev1) = 1%nat).
    { unfold training_events. change (EvZeroGrad :: ?x) with ([EvZeroGrad] ++ x).
      rewrite !training_steps_app, !count_app, Hf, Ho.
      destruct (use_scheduler self); split; reflexivity. }
    destruct HT as (HT1 & HT2).
    assert (HS : training_steps (EvZeroGrad :: ev1 ++ [EvBackward; EvOptimizerStep])
                 = full_iterations 1
                 /\ count is_optimizer_step (EvZeroGrad :: ev1 ++ [EvBackward; EvOptimizerStep])
                    = 1%nat).
    { change (EvZeroGrad :: ?x) with ([EvZeroGrad] ++ x).
      rewrite !training_steps_app, !count_app, Hf, Ho. split; reflexivity. }
    destruct HS as (HS1 & HS2).
    remember (training_events self ev1) as T eqn:HeqT. clear HeqT.
    remember (EvZeroGrad :: ev1 ++ [EvBackward; EvOptimizerStep]) as S0 eqn:HeqS. clear HeqS.
    destruct (use_scheduler self); [destruct (scheduler _) as [s|]|];
      try (destruct (decide _)); intros [= <- _ <-]; left;
      rewrite ?training_steps_app, ?count_app;
      rewrite ?(proj1 (Hr _ _ _ _ _ _ _ _ _ _ _ _)), ?(proj2 (Hr _ _ _ _ _ _ _ _ _ _ _ _));
      rewrite ?app_nil_r, ?Nat.add_0_r; repeat split; assumption.
  - intros [= <- _ <-]. right.
    pose proof (forward_and_loss_raises _ _ _ _ _ _ Hfw) as He.
    change (EvZeroGrad :: ev1) with ([EvZeroGrad] ++ ev1).
    rewrite training_steps_app, count_app.
    rewrite (training_steps_nil (fun e => is_forward_event e = true) ev1
               ltac:(intros []; (reflexivity || discriminate)) Hev).
    rewrite (count_none is_optimizer_step is_forward_event ev1 ltac:(event_cases) Hev).
    destruct He as [-> | ->]; repeat split; eauto.
Qed.

Lemma for_each_steps (self : MBOLens) (target : Tensor) (its : list Z) :
  forall (l : Locals) (w w' : World) (r : result Locals) (evs : list event),
  for_each (optim_body self target) its l w = (r, w', evs) ->
  training_steps evs = full_iterations (count is_optimizer_step evs) ++ unfinished r.
Proof.
  induction its as [|i its IH]; intros l w w' r evs; cbn [for_each].
  - intros [= <- _ <-]. reflexivity.
  - unfold bind.
    destruct (optim_body self target i l w) as [[[l1|e] w1] ev1] eqn:Hbody.
    + destruct (for_each _ its l1 w1) as [[r2 w2] ev2] eqn:Hrest.
      intros [= <- _ <-]. apply IH in Hrest.
      rewrite training_steps_app, count_app, Hrest.
      apply optim_body_steps in Hbody as [(-> & -> & _)|(_ & _ & _ & e & He)];
        [|discriminate].
      reflexivity.
    + intros [= <- _ <-].
      apply optim_body_steps in Hbody as [(-> & -> & ->)|(-> & -> & -> & _)]; reflexivity.
Qed.

(** X13: the steps of the optimisation come in one order only.  In the
    trace of a run of [optim], whatever its outcome, the calls of
    [zero_grad], [backward] and [step] form whole triples
    zero_grad, backward, step, one per optimiser step, followed by a single
    [zero_grad] when the run ended in a forward pass that raised: no
    optimiser step is taken without a backward pass on a gradient cleared
    just before. *)
Theorem steps_in_order (self : MBOLens) (target : Tensor) (w : World) :
  training_steps (snd (optim self target w))
  = full_iterations (count is_optimizer_step (snd (optim self target w)))
    ++ unfinished (fst (fst (optim self target w))).
Proof.
  destruct (optim_loop self target w) as [[[l|e] w1] ev1] eqn:Hrun.
  - rewrite (optim_after_loop _ _ _ _ _ _ Hrun).
    unfold optim_loop in Hrun. apply for_each_steps in Hrun. cbn [unfinished] in Hrun.
    rewrite app_nil_r in Hrun.
    destruct (psf_save l) as [[s|]|]; [destruct (print_pred l)|..]; cbn [fst snd unfinished];
      rewrite ?training_steps_app, ?count_app, Hrun; cbn;
      rewrite ?app_nil_r, ?Nat.add_0_r; reflexivity.
  - rewrite (optim_loop_raise _ _ _ _ _ _ Hrun). cbn [fst snd].
    unfold optim_loop in Hrun. apply for_each_steps in Hrun. exact Hrun.
Qed.

End Coverage.

(** * Runs with the stand-in collaborators *)

#[local] Existing Instance mock.

(** C1 as stated, for NaN and Inf alike, fails: from finite logits whose
    squared field amplitude overflows, the forward pass returns normally and
    the PSF it returns has an infinite element. *)
Lemma forward_returns_infinite_psf :
  returned_psf (forward (mkCamera false) [1%float] (litho_model overflow_world) overflow_world)
  = Some [infinity]
  /\ existsb PrimFloat.is_infinity [infinity] = true
  /\ torch_isnan_any [infinity] = false.
Proof. repeat split; vm_compute; reflexivity. Qed.

(** C1 and C7 on three forward passes: a PSF with a NaN element; the
    lithography model bypassed; the lithography model applied. *)
Example forward_raises_on_nan :
  forward (mkCamera false) [1%float] (litho_model nan_world) nan_world
  = (Raise RuntimeError_reraise, with_rng 1%nat nan_world, []).
Proof. vm_compute. reflexivity. Qed.

Example forward_without_litho_model :
  forward (mkCamera false) [1%float] (litho_model mock_world) mock_world
  = (Ok ([0.3125%float], [0.25%float; 0.0625%float], 0.3125%float,
         [0.5%float; 0.25%float], [0.5%float; 0.25%float]),
     with_rng 2%nat mock_world, []).
Proof. vm_compute. reflexivity. Qed.

Example forward_with_litho_model :
  forward (mkCamera true) [1%float] (litho_model mock_world) mock_world
  = (Ok ([1.25%float], [1%float; 0.25%float], 1.25%float,
         [1%float; 0.5%float], [0.5%float; 0.25%float]),
     with_rng 2%nat mock_world, [EvLithoModel [0.5%float; 0.25%float]]).
Proof. vm_compute. reflexivity. Qed.

(** C2 on the code: constructing the object with pretrained weights loads
    the checkpoint, and leaves [requires_grad] of the parameter [True]; what
    the loop of l.104-105 sets is a new attribute, [requries_grad]. *)
Theorem pretrained_parameters_not_frozen :
  match MBOLens_init "pbl3d" true 1 0.5%float false 1 0.004%float 0.02%float "out"
          (Some "cbr") 0%nat with
  | (Ok (_, w), _) =>
      map p_data (parameters (litho_model w)) = [[2%float]]
      /\ map requires_grad (parameters (litho_model w)) = [true]
      /\ map (fun p => getattr p "requries_grad") (parameters (litho_model w)) = [Some false]
  | (Raise _, _) => False
  end.
Proof. vm_compute. repeat split; reflexivity. Qed.

(** C3 at a concrete input: one iteration with [loss_type='bogus']. *)
Lemma wrong_loss_type_raises_witness :
  exists w' evs,
    optim (mock_self true (Some "bogus") 1 2) [1%float] mock_world = (Raise Exception_, w', evs)
    /\ count is_optimizer_step evs = 0%nat
    /\ logits w' = logits mock_world.
Proof.
  destruct (wrong_loss_type_raises (mock_self true (Some "bogus") 1 2) [1%float] mock_world)
    as [_ (e & w' & evs & Hrun & Hsteps & Hlogits & Hfirst)]; [discriminate | discriminate |].
  destruct (Hfirst ltac:(cbn; lia)) as [_ He]. vm_compute in He. subst e.
  exists w', evs. repeat split; assumption.
Defined.

(** C9 on three runs: no iteration; three iterations rendering every second
    one; two iterations rendering every second one. *)
Example optim_without_iteration :
  fst (fst (optim (mock_self false (Some "cbr") 0 1) [1%float] mock_world))
  = Raise (UnboundLocalError "psf_save").
Proof. vm_compute. reflexivity. Qed.

Example optim_last_iteration_not_rendered :
  fst (fst (optim (mock_self false (Some "cbr") 3 2) [1%float] mock_world))
  = Raise (AttributeError "numpy")
  /\ count is_optimizer_step (snd (optim (mock_self false (Some "cbr") 3 2) [1%float] mock_world))
     = 3%nat
  /\ count is_imwrite (snd (optim (mock_self false (Some "cbr") 3 2) [1%float] mock_world))
     = 0%nat.
Proof. repeat split; vm_compute; reflexivity. Qed.

Example optim_last_iteration_rendered :
  fst (fst (optim (mock_self false (Some "cbr") 2 2) [1%float] mock_world))
  = Ok ([(-0.5)%float; (-0.75)%float], [0%float; (-0.25)%float])
  /\ List.filter is_imwrite (snd (optim (mock_self false (Some "cbr") 2 2) [1%float] mock_world))
     = [EvImwrite "out/mask.bmp" [0; 0]; EvImwrite "out/psf.bmp" [0; 0]].
Proof. repeat split; vm_compute; reflexivity. Qed.

(** C4 and C6 on two evaluations.  The raw structural similarity is the
    float32 tensor 0.1, that is 0.100000001490116...: the metric computed on
    the tensor is the float32 value 0.800000011920929. *)
Example calculate_loss_cbr_run :
  calculate_loss (mock_self false (Some "cbr") 1 1) [3%float] [1%float] [2%float] mock_world
  = (Ok ((-2)%float, None, [0.80000001192092896%float], [(-3)%float]), mock_world, []).
Proof. vm_compute. reflexivity. Qed.

Example calculate_loss_deconv_run :
  calculate_loss (mock_self false (Some "deconv_loss") 1 1) [3%float] [1%float] [2%float] mock_world
  = (Ok (2%float, Some [3%float],
         [0.80000001192092896%float; 0.80000001192092896%float],
         [(-3)%float; (-3)%float]),
     mock_world, [EvDeconv [3%float] [2%float]]).
Proof. vm_compute. reflexivity. Qed.

(** C6 on the same raw value in two dtypes: on a float32 tensor the
    difference from 1 is rounded to float32; on a float64 tensor the result
    is the one of Python floats. *)
Example reported_ssim_float32 :
  reported_ssim (mkScalar float32 0.10000000149011612%float) = 0.80000001192092896%float
  /\ reported_ssim (mkScalar float64 0.10000000149011612%float) = 0.79999999701976776%float
  /\ (1 - 0.10000000149011612 * 2)%float = 0.79999999701976776%float
  /\ reported_psnr (mkScalar float32 3%float) = (-3)%float.
Proof. repeat split; vm_compute; reflexivity. Qed.


(** C10 at a concrete input: two iterations, rendering each.  The returned
    print prediction is computed from the logits [0, -0.25] the last
    iteration started from, the returned profile from the final logits
    [-0.5, -0.75]. *)
Lemma returned_values_logits_states_witness :
  let self := mock_self false (Some "cbr") 2 1 in
  fst (fst (optim self [1%float] mock_world))
  = Ok ([(-0.5)%float; (-0.75)%float], [0%float; (-0.25)%float])
  /\ exists l_prev w_last ev_prev,
      for_each (optim_body self [1%float]) (range (num_iters self - 1))
        (mkLocals [] [] None None) mock_world = (Ok l_prev, w_last, ev_prev)
      /\ logits w_last = [0%float; (-0.25)%float]
      /\ [0%float; (-0.25)%float] = print_pred_of (camera self) (litho_model w_last) w_last
      /\ next_logits self [1%float] w_last = [(-0.5)%float; (-0.75)%float].
Proof.
  cbv zeta. split; [vm_compute; reflexivity|].
  destruct (optim (mock_self false (Some "cbr") 2 1) [1%float] mock_world)
    as [[r w'] evs] eqn:Hrun.
  assert (Hr : r = Ok ([(-0.5)%float; (-0.75)%float], [0%float; (-0.25)%float])).
  { change r with (fst (fst (r, w', evs))). rewrite <- Hrun. vm_compute. reflexivity. }
  assert (Hw : logits w' = [(-0.5)%float; (-0.75)%float]).
  { change w' with (snd (fst (r, w', evs))). rewrite <- Hrun. vm_compute. reflexivity. }
  subst r.
  destruct (returned_values_logits_states _ _ _ _ _ _ _ Hrun)
    as (l_prev & w_last & ev_prev & Hprev & Hpp & Hlg & _).
  exists l_prev, w_last, ev_prev. split; [exact Hprev|].
  rewrite <- Hlg, Hw. split; [|split; [exact Hpp | reflexivity]].
  pose proof Hprev as Hprev'. vm_compute in Hprev'.
  injection Hprev' as _ <- _. reflexivity.
Defined.

(** ** The further properties at concrete inputs *)

(** X1 on a forward pass. *)
Example psf_nonnegative_run :
  returned_psf (forward (mkCamera true) [1%float] (litho_model mock_world) mock_world)
  = Some [1%float; 0.25%float]
  /\ forallb (PrimFloat.leb 0%float) [1%float; 0.25%float] = true.
Proof. split; vm_compute; reflexivity. Qed.

(** X3 at a concrete input: two iterations, rendering each. *)
Lemma saved_files_logits_states_witness :
  let self := mock_self false (Some "cbr") 2 1 in
  exists l_prev w_last ev_prev,
    for_each (optim_body self [1%float]) (range (num_iters self - 1))
      (mkLocals [] [] None None) mock_world = (Ok l_prev, w_last, ev_prev)
    /\ logits (snd (fst (optim self [1%float] mock_world))) = next_logits self [1%float] w_last
    /\ imwrite_calls (snd (optim self [1%float] mock_world)) =
        [EvImwrite "out/mask.bmp"
           (astype_uint8
              (add_scalar (fst (logits_to_doe_profile (next_logits self [1%float] w_last)))
                 10%float));
         EvImwrite "out/psf.bmp"
           (astype_uint8
              (mul_scalar (snapshot (psf_of (camera self) (litho_model w_last) w_last))
                 255%float))].
Proof.
  cbv zeta.
  destruct (optim (mock_self false (Some "cbr") 2 1) [1%float] mock_world)
    as [[[r|e] w'] evs] eqn:Hrun.
  - destruct (saved_files_logits_states _ _ _ _ _ _ Hrun)
      as (l_prev & w_last & ev_prev & Hprev & Hlg & Hw).
    exists l_prev, w_last, ev_prev. cbn [fst snd]. repeat split; assumption.
  - vm_compute in Hrun. discriminate Hrun.
Defined.

(** X4 at a concrete input: an object built with [use_scheduler], three
    iterations. *)
Lemma scheduler_steps_witness :
  count is_scheduler_step (snd (optim scheduled_self [1%float] scheduled_world))
  = count is_optimizer_step (snd (optim scheduled_self [1%float] scheduled_world))
  /\ fst (fst (optim scheduled_self [1%float] scheduled_world))
     <> Raise (AttributeError "scheduler").
Proof.
  apply (scheduler_steps (H := mock) "pbl3d" false 3 0.5%float true 2 0.004%float 0.02%float "out"
           (Some "cbr") 0%nat [1%float] scheduled_self scheduled_world [EvPrintLoad false]).
  vm_compute. reflexivity.
Defined.

(** X5 at a concrete input: three iterations, rendering every second one. *)
Lemma optim_failure_modes_witness :
  let run := optim (mock_self false (Some "cbr") 3 2) [1%float] mock_world in
  fst (fst run) = Raise (AttributeError "numpy")
  /\ count is_optimizer_step (snd run) = 3%nat.
Proof.
  cbv zeta.
  destruct (optim (mock_self false (Some "cbr") 3 2) [1%float] mock_world)
    as [[[r|e] w'] evs] eqn:Hrun.
  - vm_compute in Hrun. discriminate Hrun.
  - assert (He : Raise e = @Raise (Tensor * Tensor) (AttributeError "numpy")).
    { change (@Raise (Tensor * Tensor) e) with (fst (fst (@Raise (Tensor * Tensor) e, w', evs))).
      rewrite <- Hrun. vm_compute. reflexivity. }
    injection He as ->.
    assert (Hready : scheduler_ready (mock_self false (Some "cbr") 3 2) mock_world)
      by (intros Hus; discriminate Hus).
    destruct (optim_failure_modes _ _ _ _ _ _ Hready Hrun)
      as [(Hx & _)|[(_ & _ & _ & Ho)|[(Hx & _)|([Hx|Hx] & _)]]]; try discriminate Hx.
    cbn [fst snd]. split; [reflexivity | exact Ho].
Defined.

(** X6 at a concrete input: two iterations asked for, an interval of zero. *)
Lemma zero_interval_fails_after_first_step_witness :
  exists w' evs,
    optim (mock_self false (Some "cbr") 2 0) [1%float] mock_world
    = (Raise ZeroDivisionError, w', evs)
    /\ count is_optimizer_step evs = 1%nat
    /\ logits w' = next_logits (mock_self false (Some "cbr") 2 0) [1%float] mock_world
    /\ imwrite_calls evs = [].
Proof.
  apply (zero_interval_fails_after_first_step (mock_self false (Some "cbr") 2 0) [1%float]
           mock_world).
  - reflexivity.
  - cbn. lia.
  - intros Hus. discriminate Hus.
  - vm_compute. reflexivity.
  - left. reflexivity.
Defined.

(** X2 on two runs that differ in the directory: [optim] returns on both,
    with the same two calls of [cv2.imwrite]; into the directory that does
    not exist no file is written. *)
Example export_to_missing_directory :
  let self := mkMBOLens "pbl3d" 0.004%float 0.02%float (mkCamera false) (Some "cbr") 2
                0.5%float 1 "missing_dir" false in
  fst (fst (optim self [1%float] mock_world))
  = Ok ([(-0.5)%float; (-0.75)%float], [0%float; (-0.25)%float])
  /\ imwrite_calls (snd (optim self [1%float] mock_world))
     = [EvImwrite "missing_dir/mask.bmp" [0; 0]; EvImwrite "missing_dir/psf.bmp" [0; 0]]
  /\ files_written (snd (optim self [1%float] mock_world)) = [].
Proof. cbv zeta. repeat split; vm_compute; reflexivity. Qed.

Example export_to_directory :
  let self := mock_self false (Some "cbr") 2 1 in
  fst (fst (optim self [1%float] mock_world))
  = Ok ([(-0.5)%float; (-0.75)%float], [0%float; (-0.25)%float])
  /\ files_written (snd (optim self [1%float] mock_world))
     = [EvImwrite "out/mask.bmp" [0; 0]; EvImwrite "out/psf.bmp" [0; 0]].
Proof. cbv zeta. repeat split; vm_compute; reflexivity. Qed.

(** X8 on two runs of three iterations: with the lithography model in the
    forward pass its parameter, whose [requires_grad] is [True], ends with
    the sum of three gradients in [.grad] and its value unchanged; with the
    model bypassed it ends as it started. *)
Example litho_gradient_accumulates :
  parameters
    (litho_model (snd (fst (optim (mock_self true (Some "cbr") 3 2) [1%float] mock_world))))
  = [mkParam [1%float] true (Some [3%float]) ∅]
  /\ parameters
       (litho_model (snd (fst (optim (mock_self false (Some "cbr") 3 2) [1%float] mock_world))))
     = [mkParam [1%float] true None ∅].
Proof. split; vm_compute; reflexivity. Qed.

(** X12 on four constructions: a negative learning rate and a NaN learning
    rate without the flag; a NaN learning rate with the flag and no
    checkpoint, where the error of [torch.load] comes first; a valid learning
    rate of zero. *)
Example construction_failures :
  MBOLens_init "pbl3d" false 1 (-0.5)%float false 1 0.004%float 0.02%float "out" (Some "cbr")
    0%nat
  = (Raise (ValueError_lr (-0.5)%float), [EvPrintLoad false])
  /\ MBOLens_init "pbl3d" false 1 nan false 1 0.004%float 0.02%float "out" (Some "cbr") 0%nat
     = (Raise (ValueError_lr nan), [EvPrintLoad false])
  /\ MBOLens_init "other" true 1 nan false 1 0.004%float 0.02%float "out" (Some "cbr") 0%nat
     = (Raise (FileNotFoundError "model/ckpt/learned_litho_model_other.pt"),
        [EvPrintLoad true])
  /\ fst (MBOLens_init "pbl3d" false 1 0%float false 1 0.004%float 0.02%float "out"
            (Some "cbr") 0%nat)
     = Ok (mkMBOLens "pbl3d" 0.004%float 0.02%float (mkCamera false) (Some "cbr") 1 0%float 1
             "out" false,
           @mkWorld mock [0.5%float; 0.25%float] None (@model_selector mock "pbl3d") 0%float
             None 0%nat).
Proof. repeat split; vm_compute; reflexivity. Qed.

(** X7, X11 and X13 on runs. *)
Example negative_interval_run :
  rendered (snd (optim (mock_self false (Some "cbr") 4 (-2)) [1%float] mock_world)) = [1; 3].
Proof. vm_compute. reflexivity. Qed.

Example shows_per_rendering_run :
  count is_show (snd (optim (mock_self true (Some "deconv_loss") 4 2) [1%float] mock_world))
  = 8%nat
  /\ count is_show (snd (optim (mock_self true (Some "cbr") 4 2) [1%float] mock_world))
     = 6%nat.
Proof. split; vm_compute; reflexivity. Qed.

Example steps_in_order_run :
  training_steps (snd (optim (mock_self true (Some "bogus") 2 1) [1%float] mock_world))
  = [EvZeroGrad]
  /\ training_steps (snd (optim (mock_self true (Some "cbr") 2 1) [1%float] mock_world))
     = [EvZeroGrad; EvBackward; EvOptimizerStep; EvZeroGrad; EvBackward; EvOptimizerStep].
Proof. split; vm_compute; reflexivity. Qed.
